(** * go-test-patterns: the worker package's retrying HTTP handler

    A shallow embedding of [worker/handler.go]: the retryability predicate
    [isRetryable], the retry controller [retryableAPICall] and its caller
    [getData], together with the properties the specification states about
    them.

    Go values are modelled as follows.
    - [int], [time.Duration]: [Z], with the 64-bit wrap-around written out
      ([wrap64]) wherever the source does arithmetic.
    - [*http.Response]: [option Response] ([None] is the nil pointer).
    - [error]: [option error] ([None] is the nil interface).
    - the attempt function [fn] and every other effect (sleeping, closing a
      body, reading a body, printing): a state monad over a [World] that
      counts the calls made to the transport and logs every effect, in order,
      in a trace. *)

From Stdlib Require Import ZArith List String Ascii Bool Lia Arith.
From Stdlib Require Import DecimalString.
Import ListNotations.

Local Open Scope string_scope.
Local Open Scope list_scope.
Local Open Scope Z_scope.

(** ** Machine integers *)

(** Go's [int] and [time.Duration] are 64-bit two's complement. *)
Definition wrap64 (z : Z) : Z := (z + 2 ^ 63) mod 2 ^ 64 - 2 ^ 63.

(** ** Errors and the part of [fmt] the handler uses *)

(** An error is either a leaf ([errors.New], or whatever the transport or
    the body reader produced) or the value [fmt.Errorf] builds around a
    [%w] operand: its message, fixed when it is built, and the wrapped
    error. *)
Inductive error : Type :=
| errorString (s : string)
| wrapError (msg : string) (err : error).

Definition Error (e : error) : string :=
  match e with
  | errorString s => s
  | wrapError msg _ => msg
  end.

Definition Unwrap (e : error) : option error :=
  match e with
  | errorString _ => None
  | wrapError _ err => Some err
  end.

(** The verb [%d]. *)
Definition fmt_d (z : Z) : string := NilZero.string_of_int (Z.to_int z).

(** [fmt.Errorf(prefix + "%d", n)]: no [%w], hence a plain [errors.New]. *)
Definition Errorf_d (prefix : string) (n : Z) : error :=
  errorString (prefix ++ fmt_d n)%string.

(** [fmt.Errorf(prefix + "%w", err)].  A nil operand is not an error: [fmt]
    prints it as a bad verb and wraps nothing. *)
Definition Errorf_w (prefix : string) (err : option error) : error :=
  match err with
  | Some e => wrapError (prefix ++ Error e)%string e
  | None => errorString (prefix ++ "%!w(<nil>)")%string
  end.

(** [fmt.Errorf(a + "%d" + b + "%w", n, err)]. *)
Definition Errorf_d_w (a : string) (n : Z) (b : string) (err : option error)
  : error :=
  Errorf_w (a ++ fmt_d n ++ b)%string err.

(** [s] contains [sub] (gomega's [ContainSubstring]). *)
Definition Contains (s sub : string) : Prop :=
  exists pre post, s = (pre ++ sub ++ post)%string.

(** ** Responses *)

(** The outcome of [io.ReadAll] on a body. *)
Inductive ReadResult : Type :=
| ReadOk (data : list Byte.byte)
| ReadErr (e : error).

(** A response body ([io.ReadCloser]).  [body_id] is the identity of the
    stream: two responses with the same [body_id] share one body.
    [read_all] is what [io.ReadAll] yields on it. *)
Record ReadCloser : Type := mkBody {
  body_id : nat;
  read_all : ReadResult
}.

Record Response : Type := mkResponse {
  StatusCode : Z;
  Body : ReadCloser
}.

(** What one attempt returns: a response pointer and an error. *)
Definition Outcome : Type := (option Response * option error)%type.

(** ** The world *)

Inductive Event : Type :=
| EvSleep (d : Z)          (* time.Sleep(d), d in nanoseconds *)
| EvCall (n : nat)         (* the transport is called for the n-th time (from 0) *)
| EvClose (b : nat)        (* Close() on the body with identity b *)
| EvReadAll (b : nat)      (* io.ReadAll on the body with identity b *)
| EvPrint (s : string).    (* fmt.Printf *)

Record World : Type := mkWorld {
  calls : nat;             (* calls made to the transport so far *)
  trace : list Event       (* every effect so far, oldest first *)
}.

Definition emit (ev : Event) (w : World) : World :=
  {| calls := calls w; trace := trace w ++ [ev] |}.

(** ** The monad of effects

    A computation returns normally, panics, or exceeds the bound put on its
    loop ([Diverge]; shown below never to happen). *)
Inductive Res (A : Type) : Type :=
| Ok (a : A) (w : World)
| Panic (w : World)
| Diverge.
Arguments Ok {A} a w.
Arguments Panic {A} w.
Arguments Diverge {A}.

Definition M (A : Type) : Type := World -> Res A.

Definition ret {A} (a : A) : M A := fun w => Ok a w.

Definition bind {A B} (m : M A) (k : A -> M B) : M B :=
  fun w =>
    match m w with
    | Ok a w' => k a w'
    | Panic w' => Panic w'
    | Diverge => Diverge
    end.

Definition panic {A} : M A := fun w => Panic w.
Definition diverge {A} : M A := fun _ => Diverge.

Notation "x <- m ;; k" := (bind m (fun x => k))
  (at level 61, m at next level, right associativity).
Notation "' pat <- m ;; k" := (bind m (fun x => match x with pat => k end))
  (at level 61, pat pattern, m at next level, right associativity).
Notation "m ;; k" := (bind m (fun _ => k))
  (at level 61, right associativity).

(** [defer d] around the rest of a function body: [d] runs when the body
    returns and when it panics. *)
Definition defer {A} (d : M unit) (body : M A) : M A :=
  fun w =>
    match body w with
    | Ok a w' =>
        match d w' with
        | Ok _ w'' => Ok a w''
        | Panic w'' => Panic w''
        | Diverge => Diverge
        end
    | Panic w' =>
        match d w' with
        | Ok _ w'' => Panic w''
        | Panic w'' => Panic w''
        | Diverge => Diverge
        end
    | Diverge => Diverge
    end.

(** The effects. *)
Definition time_Sleep (d : Z) : M unit := fun w => Ok tt (emit (EvSleep d) w).
Definition Close (b : ReadCloser) : M unit :=
  fun w => Ok tt (emit (EvClose (body_id b)) w).
Definition io_ReadAll (b : ReadCloser) : M ReadResult :=
  fun w => Ok (read_all b) (emit (EvReadAll (body_id b)) w).
Definition fmt_Printf (s : string) : M unit := fun w => Ok tt (emit (EvPrint s) w).

(** An attempt function driven by a script: its n-th call (from 0, counted
    by the world) returns [script n].  Every sequence of outcomes is the
    script of some attempt function. *)
Definition scripted (script : nat -> Outcome) : M Outcome :=
  fun w =>
    Ok (script (calls w))
       {| calls := S (calls w); trace := trace w ++ [EvCall (calls w)] |}.

(** ** handler.go *)

Definition defaultMaxRetries : Z := 3.
Definition Millisecond : Z := 1000000.
Definition defaultRetryDelay : Z := 100 * Millisecond.
Definition serverErrorThreshold : Z := 500.
Definition http_StatusOK : Z := 200.

(** [http.Client]: [Get url] performs one round trip; [RoundTrip url n] is
    what the n-th one returns. *)
Record http_Client : Type := mkClient {
  RoundTrip : string -> nat -> Outcome
}.

Definition Client_Get (c : http_Client) (url : string) : M Outcome :=
  scripted (RoundTrip c url).

Record DefaultHandler : Type := mkDefaultHandler {
  httpClient : http_Client
}.

Definition isRetryable (h : DefaultHandler)
  (resp : option Response) (err : option error) : bool :=
  match err with
  | Some _ => true
  | None =>
      match resp with
      | Some r =>
          if serverErrorThreshold <=? StatusCode r then true else false
      | None => false
      end
  end.

(** How the [for] loop of [retryableAPICall] is left: by its [return], or by
    its [break] or condition, with the current [resp] and [err]. *)
Inductive LoopExit : Type :=
| Returned (resp : option Response) (err : option error)
| Fell (resp : option Response) (err : option error).

Section RetryableAPICall.

Variable fn : M Outcome.
Variable maxRetries : Z.
Variable isRetryable : option Response -> option error -> bool.

(** [for attempt := ...; attempt <= maxRetries; attempt++ { ... }], entered
    with the loop variable at [attempt]; [fuel] bounds the iterations. *)
Fixpoint retry_loop (fuel : nat) (attempt : Z)
  (resp : option Response) (err : option error) : M LoopExit :=
  match fuel with
  | O => diverge
  | S fuel' =>
      if attempt <=? maxRetries then
        (if 0 <? attempt
         then time_Sleep (wrap64 (attempt * defaultRetryDelay))
         else ret tt) ;;
        '(resp, err) <- fn ;;
        if negb (isRetryable resp err) then ret (Returned resp err)
        else
          match resp with
          | Some r => Close (Body r)
          | None => ret tt
          end ;;
          if attempt =? maxRetries then ret (Fell resp err)
          else retry_loop fuel' (wrap64 (attempt + 1)) resp err
      else ret (Fell resp err)
  end.

(** One more than the number of times the loop condition can hold. *)
Definition retry_fuel : nat := S (Z.to_nat (maxRetries + 1)).

Definition retryableAPICall : M Outcome :=
  x <- retry_loop retry_fuel 0 None None ;;
  match x with
  | Returned resp err => ret (resp, err)
  | Fell _ err =>
      ret (None,
           Some (Errorf_d_w "failed after " (wrap64 (maxRetries + 1))
                            " attempts: " err))
  end.

End RetryableAPICall.

Definition newline : string := String (ascii_of_nat 10) EmptyString.

Definition getData (h : DefaultHandler) (url : string) : M (option error) :=
  '(resp, err) <- retryableAPICall (Client_Get (httpClient h) url)
                    defaultMaxRetries (isRetryable h) ;;
  match err with
  | Some _ => ret (Some (Errorf_w "failed to make HTTP request: " err))
  | None =>
      match resp with
      | None => panic        (* resp.Body on a nil pointer *)
      | Some r =>
          defer (Close (Body r))
            (if negb (StatusCode r =? http_StatusOK) then
               ret (Some (Errorf_d "unexpected status code: " (StatusCode r)))
             else
               rd <- io_ReadAll (Body r) ;;
               match rd with
               | ReadErr e =>
                   ret (Some (Errorf_w "failed to read response body: " (Some e)))
               | ReadOk body =>
                   fmt_Printf ("Received " ++ fmt_d (Z.of_nat (List.length body))
                               ++ " bytes of data" ++ newline)%string ;;
                   ret None
               end)
      end
  end.

(** The [Handler] interface and its one implementation. *)
Class Handler (T : Type) : Type := {
  Handle : T -> string -> M (option error)
}.

#[export] Instance DefaultHandler_Handler : Handler DefaultHandler := {
  Handle := getData
}.

(** ** Runs of the retry loop

    [loop_run a c evs c' x]: entered with the loop variable at [a] and [c]
    calls already made, the loop of [retryableAPICall], run on a scripted
    attempt function, logs the events [evs], leaves [c'] calls made and
    exits by [x]. *)

Definition sleepEvents (attempt : Z) : list Event :=
  if 0 <? attempt then [EvSleep (wrap64 (attempt * defaultRetryDelay))]
  else [].

Definition closeEvents (o : Outcome) : list Event :=
  match fst o with
  | Some r => [EvClose (body_id (Body r))]
  | None => []
  end.

Section LoopRuns.

Variable script : nat -> Outcome.
Variable retryable : option Response -> option error -> bool.
Variable maxRetries : Z.

Definition retryable_at (n : nat) : bool :=
  retryable (fst (script n)) (snd (script n)).

Inductive loop_run : Z -> nat -> list Event -> nat -> LoopExit -> Prop :=
| run_return a c :
    retryable_at c = false ->
    loop_run a c (sleepEvents a ++ [EvCall c]) (S c)
             (Returned (fst (script c)) (snd (script c)))
| run_break a c :
    retryable_at c = true ->
    a = maxRetries ->
    loop_run a c (sleepEvents a ++ [EvCall c] ++ closeEvents (script c)) (S c)
             (Fell (fst (script c)) (snd (script c)))
| run_next a c evs c' x :
    retryable_at c = true ->
    a < maxRetries ->
    loop_run (a + 1) (S c) evs c' x ->
    loop_run a c (sleepEvents a ++ [EvCall c] ++ closeEvents (script c) ++ evs)
             c' x.

(** What [retryableAPICall] makes of the way its loop was left. *)
Definition exit_outcome (x : LoopExit) : Outcome :=
  match x with
  | Returned resp err => (resp, err)
  | Fell _ err =>
      (None, Some (Errorf_d_w "failed after " (wrap64 (maxRetries + 1))
                              " attempts: " err))
  end.

End LoopRuns.

(** The calls logged by a list of events, in order. *)
Definition calls_of (evs : list Event) : list nat :=
  flat_map (fun ev => match ev with EvCall n => [n] | _ => [] end) evs.

(** In the events [evs], the body [b] obtained by the call logged at
    position [i] is closed after that call and before any further call. *)
Definition closed_after (evs : list Event) (i : nat) (b : nat) : Prop :=
  exists j : nat,
    (i < j)%nat /\
    nth_error evs j = Some (EvClose b) /\
    forall m n : nat, (i < m < j)%nat -> nth_error evs m <> Some (EvCall n).

(** ** The doubles of the test suite (handler_test.go) *)

(** [MockRoundTripper]: every call returns [Err] if it is set, else
    [Response]. *)
Record MockRoundTripper : Type := mkMock {
  Mock_Response : option Response;
  Mock_Err : option error
}.

Definition Mock_RoundTrip (m : MockRoundTripper) : Outcome :=
  match Mock_Err m with
  | Some e => (None, Some e)
  | None => (Mock_Response m, None)
  end.

(** A client whose transport is a [MockRoundTripper]. *)
Definition mockClient (m : MockRoundTripper) : http_Client :=
  {| RoundTrip := fun _ _ => Mock_RoundTrip m |}.

(** [createMockResponse]; [id] names the body it allocates. *)
Definition createMockResponse (id : nat) (statusCode : Z) (body : string)
  : Response :=
  {| StatusCode := statusCode;
     Body := {| body_id := id; read_all := ReadOk (list_byte_of_string body) |} |}.

(** [ErrorReader]: a body whose [Read] always fails. *)
Definition ErrorReader (id : nat) : ReadCloser :=
  {| body_id := id; read_all := ReadErr (errorString "read error") |}.

(** The transport of the "succeeds after retries" test: 500 on the first
    call, 200 afterwards, a new response each time. *)
Definition flakyClient : http_Client :=
  {| RoundTrip := fun _ n =>
       if Nat.eqb n 0
       then (Some (createMockResponse n 500 "{error}"), None)
       else (Some (createMockResponse n 200 "{status}"), None) |}.

(** A transport that hands out one response object on every call and
    updates its status in place: 500 on the first call, 200 afterwards. *)
Definition sharedClient : http_Client :=
  {| RoundTrip := fun _ n =>
       (Some {| StatusCode := if Nat.eqb n 0 then 500 else 200;
                Body := {| body_id := 7; read_all := ReadOk [] |} |}, None) |}.

Definition testURL : string := "https://example.com/api/test".

(** A fresh process: no call made, nothing logged. *)
Definition initial : World := {| calls := 0; trace := [] |}.

(** ** Observations on a trace *)

(** The bodies closed, the bodies read and the lines printed by a list of
    events, in order, and the time slept in total (in nanoseconds). *)
Definition closes_of (evs : list Event) : list nat :=
  flat_map (fun ev => match ev with EvClose b => [b] | _ => [] end) evs.

Definition reads_of (evs : list Event) : list nat :=
  flat_map (fun ev => match ev with EvReadAll b => [b] | _ => [] end) evs.

Definition prints_of (evs : list Event) : list string :=
  flat_map (fun ev => match ev with EvPrint s => [s] | _ => [] end) evs.

Definition total_sleep (evs : list Event) : Z :=
  fold_right (fun ev acc => match ev with EvSleep d => d + acc | _ => acc end)
             0 evs.

(** The body that comes with an outcome, if a response does. *)
Definition response_body (o : Outcome) : list nat :=
  match fst o with
  | Some r => [body_id (Body r)]
  | None => []
  end.

(** A transport whose first round trip fails and whose later ones answer
    404, a new response each time. *)
Definition refusedThenNotFound : http_Client :=
  {| RoundTrip := fun _ n =>
       if Nat.eqb n 0
       then (None, Some (errorString "connection refused"))
       else (Some (createMockResponse n 404 "{}"), None) |}.

(** ** main.go *)

(** How the process ends when [main] does not panic: by returning from
    [main], or through [log.Fatalf], which logs a line (given here without
    the logger's time stamp) and exits with status 1. *)
Inductive ProcessExit : Type :=
| Done
| Fatal (line : string).

Definition fmt_Println (s : string) : M unit :=
  fmt_Printf (s ++ newline)%string.

Section Main.

(** [NewDefaultHandler] builds the handler around a zero [http.Client],
    that is around the default transport: [network url n] is what its n-th
    round trip returns. *)
Variable network : string -> nat -> Outcome.

Definition NewDefaultHandler : DefaultHandler :=
  {| httpClient := {| RoundTrip := network |} |}.

Definition main : M ProcessExit :=
  let handler := NewDefaultHandler in
  let url := "https://petstore.swagger.io/v2/pet/findByStatus?status=available" in
  err <- Handle handler url ;;
  match err with
  | Some e => ret (Fatal ("Error handling request: " ++ Error e)%string)
  | None =>
      fmt_Println "Successfully completed request" ;;
      ret Done
  end.

End Main.

(** * Properties *)

Lemma wrap64_small (z : Z) : - 2 ^ 63 <= z < 2 ^ 63 -> wrap64 z = z.
Proof.
  intros H. unfold wrap64.
  rewrite Z.mod_small by lia. lia.
Qed.

Lemma append_empty_r (s : string) : (s ++ "")%string = s.
Proof.
  induction s as [|ch s IH]; [reflexivity|].
  cbn [append]. now rewrite IH.
Qed.

Lemma Contains_refl (s : string) : Contains s s.
Proof. exists "", "". cbn [append]. now rewrite append_empty_r. Qed.

(** ** The [%d] verb on status codes *)

Example fmt_d_404 : fmt_d 404 = "404".
Proof. reflexivity. Qed.

Example fmt_d_negative : fmt_d (-7) = "-7".
Proof. reflexivity. Qed.

Example Errorf_nil_cause :
  Error (Errorf_d_w "failed after " 4 " attempts: " None)
  = "failed after 4 attempts: %!w(<nil>)".
Proof. reflexivity. Qed.

Section LoopRunFacts.

Variable script : nat -> Outcome.
Variable retryable : option Response -> option error -> bool.
Variable maxRetries : Z.
Hypothesis maxRetries_int : maxRetries < 2 ^ 63.

Local Abbreviation run := (loop_run script retryable maxRetries).
Local Abbreviation loop := (retry_loop (scripted script) maxRetries retryable).

(** The loop of the source terminates within its fuel and its execution is
    a run. *)
Lemma retry_loop_run (fuel : nat) :
  forall (a : Z) (w : World) (r : option Response) (e : option error),
    0 <= a <= maxRetries ->
    (Z.to_nat (maxRetries - a) < fuel)%nat ->
    exists evs c' x,
      loop fuel a r e w = Ok x (mkWorld c' (trace w ++ evs)) /\
      run a (calls w) evs c' x.
Proof.
  induction fuel as [|fuel IH]; intros a w r e Ha Hfuel; [lia|].
  cbn [retry_loop].
  destruct (Z.leb_spec a maxRetries) as [_|]; [|lia].
  assert (Hsleep : forall (B : Type) (k : unit -> M B),
             bind (if 0 <? a
                   then time_Sleep (wrap64 (a * defaultRetryDelay))
                   else ret tt) k w
             = k tt (mkWorld (calls w)
                             (trace w ++ sleepEvents a))).
  { intros B k. unfold sleepEvents, bind, time_Sleep, ret, emit.
    destruct (0 <? a); [reflexivity|].
    rewrite app_nil_r. destruct w; reflexivity. }
  unfold sleepEvents in Hsleep.
  rewrite Hsleep. clear Hsleep.
  unfold bind at 1. unfold scripted at 1. cbn [calls trace].
  destruct (script (calls w)) as [resp err] eqn:Hs.
  assert (Hr : retryable_at script retryable (calls w) = retryable resp err).
  { unfold retryable_at. now rewrite Hs. }
  destruct (retryable resp err) eqn:Hre; cbn [negb].
  - assert (Hclose : forall (B : Type) (k : unit -> M B) (w1 : World),
               bind (match resp with
                     | Some r0 => Close (Body r0)
                     | None => ret tt
                     end) k w1
               = k tt (mkWorld (calls w1)
                               (trace w1 ++ closeEvents (resp, err)))).
    { intros B k w1. unfold closeEvents, bind, Close, ret, emit. cbn [fst].
      destruct resp; [reflexivity|].
      rewrite app_nil_r. destruct w1; reflexivity. }
    rewrite Hclose. clear Hclose. cbn [calls trace].
    destruct (Z.eqb_spec a maxRetries) as [Heq|Hne].
    + exists (sleepEvents a ++ [EvCall (calls w)]
              ++ closeEvents (script (calls w))), (S (calls w)),
        (Fell (fst (script (calls w))) (snd (script (calls w)))).
      split.
      * unfold ret. rewrite Hs. cbn [fst snd].
        now rewrite <- !app_assoc.
      * now apply run_break.
    + rewrite wrap64_small by lia.
      destruct (IH (a + 1)
                  (mkWorld (S (calls w))
                     (((trace w ++ sleepEvents a)
                         ++ [EvCall (calls w)]) ++ closeEvents (resp, err)))
                  resp err) as (evs & c' & x & Hrun & Hx); [lia|lia|].
      exists (sleepEvents a ++ [EvCall (calls w)]
              ++ closeEvents (script (calls w)) ++ evs), c', x.
      split.
      * unfold sleepEvents in *. rewrite Hrun. cbn [calls trace].
        rewrite Hs. now rewrite <- !app_assoc.
      * cbn [calls] in Hx. apply run_next; [assumption|lia|assumption].
  - exists (sleepEvents a ++ [EvCall (calls w)]), (S (calls w)),
      (Returned (fst (script (calls w))) (snd (script (calls w)))).
    split.
    + unfold ret. rewrite Hs. cbn [fst snd].
      now rewrite <- !app_assoc.
    + now apply run_return.
Qed.

(** [retryableAPICall] on a scripted attempt function: it returns, its effects
    are those of a run of its loop started at attempt 0, and its result is
    read off the way the loop was left. *)
Lemma retryableAPICall_run (w : World) :
  0 <= maxRetries ->
  exists evs c' x,
    retryableAPICall (scripted script) maxRetries retryable w
    = Ok (exit_outcome maxRetries x) (mkWorld c' (trace w ++ evs)) /\
    run 0 (calls w) evs c' x.
Proof.
  intros Hmax.
  destruct (retry_loop_run (retry_fuel maxRetries) 0 w None None)
    as (evs & c' & x & Hloop & Hrun); [lia|unfold retry_fuel; lia|].
  exists evs, c', x. split; [|assumption].
  unfold retryableAPICall, bind. rewrite Hloop.
  destruct x; reflexivity.
Qed.

(** The controller never exceeds the bound put on its loop, whatever the
    retry budget. *)
Lemma retryableAPICall_returns (w : World) :
  exists (o : Outcome) (w' : World),
    retryableAPICall (scripted script) maxRetries retryable w = Ok o w'.
Proof.
  destruct (Z.le_gt_cases 0 maxRetries) as [Hnonneg|Hneg].
  - destruct (retryableAPICall_run w Hnonneg) as (evs & c' & x & Hcall & _).
    eauto.
  - unfold retryableAPICall, bind, retry_fuel. cbn [retry_loop].
    destruct (Z.leb_spec 0 maxRetries); [lia|].
    unfold ret. eauto.
Qed.

(** The calls logged by a list of events distribute over concatenation. *)
Lemma calls_of_app (l1 l2 : list Event) :
  calls_of (l1 ++ l2) = calls_of l1 ++ calls_of l2.
Proof. apply flat_map_app. Qed.

Lemma calls_of_sleepEvents (a : Z) : calls_of (sleepEvents a) = [].
Proof. unfold sleepEvents. now destruct (0 <? a). Qed.

Lemma calls_of_closeEvents (o : Outcome) : calls_of (closeEvents o) = [].
Proof. unfold closeEvents. now destruct (fst o). Qed.

(** A run calls the attempt function for the indices [c], [c+1], ...,
    [c'-1], in this order, and at least once. *)
Lemma run_calls_of a c evs c' x :
  run a c evs c' x ->
  (c < c')%nat /\ calls_of evs = seq c (c' - c).
Proof.
  induction 1 as [a c Hr|a c Hr Ha|a c evs c' x Hr Ha Hrun [IHlt IHc]].
  - split; [lia|].
    rewrite calls_of_app, calls_of_sleepEvents.
    replace (S c - c)%nat with 1%nat by lia. reflexivity.
  - split; [lia|].
    rewrite !calls_of_app, calls_of_sleepEvents, calls_of_closeEvents.
    replace (S c - c)%nat with 1%nat by lia. reflexivity.
  - split; [lia|].
    rewrite !calls_of_app, calls_of_sleepEvents, calls_of_closeEvents, IHc.
    replace (c' - c)%nat with (S (c' - S c)) by lia. reflexivity.
Qed.

(** A run entered at attempt [a] makes at most [maxRetries - a + 1] calls. *)
Lemma run_calls_bound a c evs c' x :
  run a c evs c' x ->
  a <= maxRetries ->
  Z.of_nat (c' - c) <= maxRetries - a + 1.
Proof.
  induction 1 as [a c Hr|a c Hr Ha|a c evs c' x Hr Ha Hrun IH]; intros Hle.
  - lia.
  - lia.
  - pose proof (run_calls_of _ _ _ _ _ Hrun) as [Hlt _].
    specialize (IH ltac:(lia)). lia.
Qed.

(** No sleep before the first attempt of a run entered at attempt 0. *)
Lemma run_head a c evs c' x :
  run a c evs c' x ->
  a <= 0 ->
  exists rest, evs = EvCall c :: rest.
Proof.
  intros Hrun Ha.
  assert (Hs : sleepEvents a = []).
  { unfold sleepEvents. destruct (Z.ltb_spec 0 a); [lia|reflexivity]. }
  destruct Hrun; rewrite Hs; cbn [app]; eauto.
Qed.

(** In a run, every call but the one of attempt 0 comes right after a sleep
    of (attempt index) x [defaultRetryDelay]; the call of attempt 0 comes
    first.  The call with index [n] is the one of attempt [a + (n - c)]. *)
Lemma run_sleep_before a c evs c' x :
  run a c evs c' x ->
  0 <= a ->
  forall (i n : nat),
    nth_error evs i = Some (EvCall n) ->
    (c <= n)%nat /\
    ((n = c /\ a = 0 /\ i = 0%nat) \/
     (0 < a + Z.of_nat (n - c) /\
      exists j, i = S j /\
        nth_error evs j
        = Some (EvSleep (wrap64 ((a + Z.of_nat (n - c)) * defaultRetryDelay))))).
Proof.
  induction 1 as [a c Hr|a c Hr Ha|a c evs c' x Hr Ha Hrun IH];
    intros H0 i n Hi.
  - unfold sleepEvents in *.
    destruct (Z.ltb_spec 0 a) as [Hpos|Hnpos]; cbn [app] in Hi.
    + destruct i as [|[|i]]; cbn in Hi; try discriminate.
      * injection Hi as <-. split; [lia|]. right.
        rewrite Nat.sub_diag, Z.add_0_r. split; [lia|].
        exists 0%nat. split; reflexivity.
      * destruct i; discriminate.
    + destruct i as [|i]; cbn in Hi.
      * injection Hi as <-. split; [lia|]. left. repeat split; lia.
      * destruct i; discriminate.
  - unfold sleepEvents, closeEvents in *.
    destruct (Z.ltb_spec 0 a) as [Hpos|Hnpos];
      destruct (fst (script c)); cbn [app] in Hi.
    all: repeat (destruct i as [|i]; cbn in Hi; try discriminate).
    all: injection Hi as <-; split; [lia|].
    all: rewrite Nat.sub_diag, Z.add_0_r.
    1,2: right; split; [lia|]; exists 0%nat; split; reflexivity.
    all: left; repeat split; lia.
  - assert (Hlater : forall (i' : nat),
               nth_error evs i' = Some (EvCall n) ->
               (c <= n)%nat /\
               0 < a + Z.of_nat (n - c) /\
               exists j', i' = S j' /\
                 nth_error evs j'
                 = Some (EvSleep
                           (wrap64 ((a + Z.of_nat (n - c)) * defaultRetryDelay)))).
    { intros i' Hi'.
      destruct (IH ltac:(lia) i' n Hi') as [Hle [(_ & Hz & _)|[Hk Hj]]]; [lia|].
      replace (a + 1 + Z.of_nat (n - S c)) with (a + Z.of_nat (n - c)) in *
        by lia.
      split; [lia|]. split; assumption. }
    unfold sleepEvents, closeEvents in *.
    destruct (Z.ltb_spec 0 a) as [Hpos|Hnpos];
      destruct (fst (script c)); cbn [app] in Hi |- *.
    + destruct i as [|[|[|i]]]; cbn in Hi; try discriminate.
      * injection Hi as <-. split; [lia|]. right.
        rewrite Nat.sub_diag, Z.add_0_r. split; [lia|].
        exists 0%nat. split; reflexivity.
      * destruct (Hlater i Hi) as (Hle & Hk & j' & -> & Hj).
        split; [assumption|]. right. split; [assumption|].
        exists (S (S (S j'))). split; [reflexivity|exact Hj].
    + destruct i as [|[|i]]; cbn in Hi; try discriminate.
      * injection Hi as <-. split; [lia|]. right.
        rewrite Nat.sub_diag, Z.add_0_r. split; [lia|].
        exists 0%nat. split; reflexivity.
      * destruct (Hlater i Hi) as (Hle & Hk & j' & -> & Hj).
        split; [assumption|]. right. split; [assumption|].
        exists (S (S j')). split; [reflexivity|exact Hj].
    + destruct i as [|[|i]]; cbn in Hi; try discriminate.
      * injection Hi as <-. split; [lia|]. left. repeat split; lia.
      * destruct (Hlater i Hi) as (Hle & Hk & j' & -> & Hj).
        split; [assumption|]. right. split; [assumption|].
        exists (S (S j')). split; [reflexivity|exact Hj].
    + destruct i as [|i]; cbn in Hi; try discriminate.
      * injection Hi as <-. split; [lia|]. left. repeat split; lia.
      * destruct (Hlater i Hi) as (Hle & Hk & j' & -> & Hj).
        split; [assumption|]. right. split; [assumption|].
        exists (S j'). split; [reflexivity|exact Hj].
Qed.

(** How a run ends: its last call, [n], is the first one from [c] on whose
    outcome decides the exit; all calls before it were retryable.  A run left
    by [return] hands out the outcome of call [n], which is not retryable,
    and logs nothing after that call; a run that falls out of the loop has
    used up every attempt on retryable outcomes. *)
Lemma run_exit a c evs c' x :
  run a c evs c' x ->
  exists n,
    c' = S n /\ (c <= n)%nat /\
    (forall m, (c <= m < n)%nat -> retryable_at script retryable m = true) /\
    match x with
    | Returned r e =>
        r = fst (script n) /\ e = snd (script n) /\
        retryable_at script retryable n = false /\
        exists pre, evs = pre ++ [EvCall n]
    | Fell r e =>
        r = fst (script n) /\ e = snd (script n) /\
        retryable_at script retryable n = true /\
        Z.of_nat (n - c) = maxRetries - a
    end.
Proof.
  induction 1 as [a c Hr|a c Hr Ha|a c evs c' x Hr Ha Hrun IH].
  - exists c. repeat split; try assumption; try lia.
    exists (sleepEvents a). reflexivity.
  - exists c. repeat split; try assumption; try lia.
  - destruct IH as (n & -> & Hle & Hbefore & Hx).
    exists n. split; [reflexivity|]. split; [lia|]. split.
    + intros m Hm. destruct (Nat.eq_dec m c) as [->|Hne]; [assumption|].
      apply Hbefore. lia.
    + destruct x as [r e|r e].
      * destruct Hx as (-> & -> & Hn & pre & ->).
        repeat split; try assumption.
        exists (sleepEvents a ++ [EvCall c] ++ closeEvents (script c) ++ pre).
        now rewrite <- !app_assoc.
      * destruct Hx as (-> & -> & Hn & Hcount).
        repeat split; try assumption. lia.
Qed.

(** In a run, the body of every response that came with a retryable outcome
    is closed right after the call that produced it. *)
Lemma run_close_after a c evs c' x :
  run a c evs c' x ->
  forall (i n : nat) (r : Response),
    nth_error evs i = Some (EvCall n) ->
    retryable_at script retryable n = true ->
    fst (script n) = Some r ->
    nth_error evs (S i) = Some (EvClose (body_id (Body r))).
Proof.
  induction 1 as [a c Hr|a c Hr Ha|a c evs c' x Hr Ha Hrun IH];
    intros i n r Hi Hn Hresp.
  - unfold sleepEvents in *.
    destruct (0 <? a); cbn [app] in Hi.
    all: repeat (destruct i as [|i]; cbn in Hi; try discriminate).
    all: injection Hi as <-; congruence.
  - unfold sleepEvents, closeEvents in *.
    destruct (0 <? a); destruct (fst (script c)) eqn:Hc; cbn [app] in Hi |- *.
    all: repeat (destruct i as [|i]; cbn in Hi; try discriminate).
    all: injection Hi as <-; cbn; congruence.
  - unfold sleepEvents, closeEvents in *.
    destruct (0 <? a); destruct (fst (script c)) eqn:Hc; cbn [app] in Hi |- *.
    + destruct i as [|[|[|i]]]; cbn in Hi; try discriminate.
      * injection Hi as <-. cbn. congruence.
      * exact (IH i n r Hi Hn Hresp).
    + destruct i as [|[|i]]; cbn in Hi; try discriminate.
      * injection Hi as <-. congruence.
      * exact (IH i n r Hi Hn Hresp).
    + destruct i as [|[|i]]; cbn in Hi; try discriminate.
      * injection Hi as <-. cbn. congruence.
      * exact (IH i n r Hi Hn Hresp).
    + destruct i as [|i]; cbn in Hi; try discriminate.
      * injection Hi as <-. congruence.
      * exact (IH i n r Hi Hn Hresp).
Qed.

(** In a run, a call whose outcome is not retryable is the last event. *)
Lemma run_terminal_last a c evs c' x :
  run a c evs c' x ->
  forall (i n : nat),
    nth_error evs i = Some (EvCall n) ->
    retryable_at script retryable n = false ->
    S i = List.length evs /\ c' = S n /\
    x = Returned (fst (script n)) (snd (script n)).
Proof.
  induction 1 as [a c Hr|a c Hr Ha|a c evs c' x Hr Ha Hrun IH];
    intros i n Hi Hn.
  - unfold sleepEvents in *.
    destruct (0 <? a); cbn [app] in Hi |- *.
    all: repeat (destruct i as [|i]; cbn in Hi; try discriminate).
    all: injection Hi as <-; repeat split; reflexivity.
  - unfold sleepEvents, closeEvents in *.
    destruct (0 <? a); destruct (fst (script c)) eqn:Hc; cbn [app] in Hi |- *.
    all: repeat (destruct i as [|i]; cbn in Hi; try discriminate).
    all: injection Hi as <-; congruence.
  - unfold sleepEvents, closeEvents in *.
    destruct (0 <? a); destruct (fst (script c)) eqn:Hc; cbn [app] in Hi |- *.
    + destruct i as [|[|[|i]]]; cbn in Hi; try discriminate.
      * injection Hi as <-. congruence.
      * destruct (IH i n Hi Hn) as (Hlen & -> & ->).
        cbn [List.length]. rewrite <- Hlen. repeat split; reflexivity.
    + destruct i as [|[|i]]; cbn in Hi; try discriminate.
      * injection Hi as <-. congruence.
      * destruct (IH i n Hi Hn) as (Hlen & -> & ->).
        cbn [List.length]. rewrite <- Hlen. repeat split; reflexivity.
    + destruct i as [|[|i]]; cbn in Hi; try discriminate.
      * injection Hi as <-. congruence.
      * destruct (IH i n Hi Hn) as (Hlen & -> & ->).
        cbn [List.length]. rewrite <- Hlen. repeat split; reflexivity.
    + destruct i as [|i]; cbn in Hi; try discriminate.
      * injection Hi as <-. congruence.
      * destruct (IH i n Hi Hn) as (Hlen & -> & ->).
        cbn [List.length]. rewrite <- Hlen. repeat split; reflexivity.
Qed.

(** The only bodies a run closes are those of responses that came with a
    retryable outcome. *)
Lemma run_closes_discarded a c evs c' x :
  run a c evs c' x ->
  forall b : nat,
    In (EvClose b) evs ->
    exists (n : nat) (r : Response),
      (c <= n < c')%nat /\
      retryable_at script retryable n = true /\
      fst (script n) = Some r /\ body_id (Body r) = b.
Proof.
  assert (Hsleep : forall a b, ~ In (EvClose b) (sleepEvents a)).
  { intros a0 b0. unfold sleepEvents.
    destruct (0 <? a0); cbn; intuition discriminate. }
  assert (Hclose : forall c b,
             In (EvClose b) (closeEvents (script c)) ->
             exists r, fst (script c) = Some r /\ body_id (Body r) = b).
  { intros c0 b0. unfold closeEvents.
    destruct (fst (script c0)) as [r|]; cbn; [|tauto].
    intros [H|[]]. injection H as <-. eauto. }
  induction 1 as [a c Hr|a c Hr Ha|a c evs c' x Hr Ha Hrun IH]; intros b Hin.
  - apply in_app_or in Hin. destruct Hin as [Hin|[Hin|[]]].
    + now apply Hsleep in Hin.
    + discriminate.
  - apply in_app_or in Hin. destruct Hin as [Hin|[Hin|Hin]].
    + now apply Hsleep in Hin.
    + discriminate.
    + destruct (Hclose _ _ Hin) as (r & Hresp & Hb).
      exists c, r. repeat split; try assumption; lia.
  - pose proof (run_calls_of _ _ _ _ _ Hrun) as [Hlt _].
    apply in_app_or in Hin. destruct Hin as [Hin|[Hin|Hin]].
    + now apply Hsleep in Hin.
    + discriminate.
    + apply (in_app_or (closeEvents (script c)) evs) in Hin.
      destruct Hin as [Hin|Hin].
      * destruct (Hclose _ _ Hin) as (r & Hresp & Hb).
        exists c, r. repeat split; try assumption; lia.
      * destruct (IH b Hin) as (n & r & Hn & Hre & Hresp & Hb).
        exists n, r. repeat split; try assumption; lia.
Qed.

End LoopRunFacts.

(** ** The controller with the handler's retry budget *)

Lemma default_run (script : nat -> Outcome)
  (retryable : option Response -> option error -> bool) (w : World) :
  exists evs c' x,
    retryableAPICall (scripted script) defaultMaxRetries retryable w
    = Ok (exit_outcome defaultMaxRetries x) (mkWorld c' (trace w ++ evs)) /\
    loop_run script retryable defaultMaxRetries 0 (calls w) evs c' x.
Proof.
  apply retryableAPICall_run; unfold defaultMaxRetries; lia.
Qed.

Lemma nth_error_calls_of (evs : list Event) :
  forall (i n : nat),
    nth_error evs i = Some (EvCall n) -> In n (calls_of evs).
Proof.
  induction evs as [|ev evs IH]; intros i n Hi.
  - destruct i; discriminate.
  - destruct i as [|i]; cbn in Hi.
    + injection Hi as ->. cbn. now left.
    + unfold calls_of. cbn [flat_map]. apply in_or_app. right.
      exact (IH i n Hi).
Qed.

(** Every call logged by a run of the default budget has an index in
    [c, c + 3]. *)
Lemma default_run_call_index script retryable c evs c' x :
  loop_run script retryable defaultMaxRetries 0 c evs c' x ->
  forall (i n : nat),
    nth_error evs i = Some (EvCall n) ->
    (c <= n < c')%nat /\ (c' <= c + 4)%nat.
Proof.
  intros Hrun i n Hi.
  pose proof (run_calls_of _ _ _ _ _ _ _ _ Hrun) as [Hlt Hcalls].
  pose proof (run_calls_bound _ _ _ _ _ _ _ _ Hrun) as Hbound.
  unfold defaultMaxRetries in Hbound. specialize (Hbound ltac:(lia)).
  apply nth_error_calls_of in Hi. rewrite Hcalls in Hi.
  apply in_seq in Hi. lia.
Qed.

Lemma failed_after_prefix :
  ("failed after " ++ fmt_d (wrap64 (defaultMaxRetries + 1)) ++ " attempts: ")%string
  = "failed after 4 attempts: ".
Proof. reflexivity. Qed.

(** ** [getData] after the controller has returned *)

Section GetDataAfter.

Variable h : DefaultHandler.
Variable url : string.
Variables w w1 : World.

Local Abbreviation call :=
  (retryableAPICall (scripted (RoundTrip (httpClient h) url))
     defaultMaxRetries (isRetryable h) w).

Lemma getData_failed (resp : option Response) (e : error) :
  call = Ok (resp, Some e) w1 ->
  getData h url w
  = Ok (Some (Errorf_w "failed to make HTTP request: " (Some e))) w1.
Proof.
  intros Hcall. unfold getData, Client_Get, bind at 1. now rewrite Hcall.
Qed.

Lemma getData_nil_response :
  call = Ok (None, None) w1 ->
  getData h url w = Panic w1.
Proof.
  intros Hcall. unfold getData, Client_Get, bind at 1. now rewrite Hcall.
Qed.

Lemma getData_bad_status (r : Response) :
  call = Ok (Some r, None) w1 ->
  StatusCode r <> 200 ->
  getData h url w
  = Ok (Some (Errorf_d "unexpected status code: " (StatusCode r)))
       (emit (EvClose (body_id (Body r))) w1).
Proof.
  intros Hcall Hstatus. unfold getData, Client_Get, bind at 1. rewrite Hcall.
  unfold defer, http_StatusOK.
  destruct (Z.eqb_spec (StatusCode r) 200) as [|_]; [contradiction|].
  reflexivity.
Qed.

Lemma getData_read_ok (r : Response) (data : list Byte.byte) :
  call = Ok (Some r, None) w1 ->
  StatusCode r = 200 ->
  read_all (Body r) = ReadOk data ->
  getData h url w
  = Ok None
       (emit (EvClose (body_id (Body r)))
          (emit (EvPrint ("Received " ++ fmt_d (Z.of_nat (List.length data))
                          ++ " bytes of data" ++ newline)%string)
             (emit (EvReadAll (body_id (Body r))) w1))).
Proof.
  intros Hcall Hstatus Hread. unfold getData, Client_Get, bind at 1.
  rewrite Hcall. unfold defer, http_StatusOK. rewrite Hstatus. cbn [Z.eqb negb].
  unfold bind, io_ReadAll. rewrite Hread. reflexivity.
Qed.

Lemma getData_read_failed (r : Response) (e : error) :
  call = Ok (Some r, None) w1 ->
  StatusCode r = 200 ->
  read_all (Body r) = ReadErr e ->
  getData h url w
  = Ok (Some (Errorf_w "failed to read response body: " (Some e)))
       (emit (EvClose (body_id (Body r)))
          (emit (EvReadAll (body_id (Body r))) w1)).
Proof.
  intros Hcall Hstatus Hread. unfold getData, Client_Get, bind at 1.
  rewrite Hcall. unfold defer, http_StatusOK. rewrite Hstatus. cbn [Z.eqb negb].
  unfold bind, io_ReadAll. rewrite Hread. reflexivity.
Qed.

End GetDataAfter.

(** The controller returns the outcome of the first attempt when the
    predicate does not ask for a retry. *)
Lemma retryableAPICall_first_terminal (script : nat -> Outcome)
  (retryable : option Response -> option error -> bool) (w : World) :
  retryable_at script retryable (calls w) = false ->
  retryableAPICall (scripted script) defaultMaxRetries retryable w
  = Ok (script (calls w))
       (mkWorld (S (calls w)) (trace w ++ [EvCall (calls w)])).
Proof.
  intros Hterm.
  destruct (default_run script retryable w) as (evs & c' & x & Hcall & Hrun).
  rewrite Hcall.
  inversion Hrun; subst; try congruence.
  cbn. now destruct (script (calls w)).
Qed.

(** ** The retryability predicate *)

(** C2.  The predicate classifies an outcome (response, error) as retryable
    when the error is non-nil; otherwise as retryable when a response was
    produced and its status code is at least 500; and otherwise as terminal,
    which includes every response with a status from 200 up to 499. *)
Theorem isRetryable_classification
  (h : DefaultHandler) (resp : option Response) (err : option error) :
  (err <> None -> isRetryable h resp err = true) /\
  (err = None ->
   (exists r, resp = Some r /\ 500 <= StatusCode r) ->
   isRetryable h resp err = true) /\
  (err = None ->
   ~ (exists r, resp = Some r /\ 500 <= StatusCode r) ->
   isRetryable h resp err = false) /\
  (err = None ->
   (exists r, resp = Some r /\ 200 <= StatusCode r < 500) ->
   isRetryable h resp err = false).
Proof.
  unfold isRetryable, serverErrorThreshold.
  split; [|split; [|split]].
  - intros Hne. destruct err; [reflexivity|congruence].
  - intros -> (r & -> & Hr).
    destruct (Z.leb_spec 500 (StatusCode r)); [reflexivity|lia].
  - intros -> Hno. destruct resp as [r|]; [|reflexivity].
    destruct (Z.leb_spec 500 (StatusCode r)); [|reflexivity].
    exfalso. apply Hno. eauto.
  - intros -> (r & -> & Hr).
    destruct (Z.leb_spec 500 (StatusCode r)); [lia|reflexivity].
Qed.

Lemma isRetryable_classification_witness :
  isRetryable (mkDefaultHandler flakyClient) None
    (Some (errorString "network error")) = true /\
  isRetryable (mkDefaultHandler flakyClient)
    (Some (createMockResponse 0 503 "{}")) None = true /\
  isRetryable (mkDefaultHandler flakyClient) None None = false /\
  isRetryable (mkDefaultHandler flakyClient)
    (Some (createMockResponse 0 404 "{}")) None = false.
Proof.
  split; [|split; [|split]].
  - apply (proj1 (isRetryable_classification (mkDefaultHandler flakyClient)
                    None (Some (errorString "network error")))).
    discriminate.
  - apply (proj1 (proj2 (isRetryable_classification
                           (mkDefaultHandler flakyClient)
                           (Some (createMockResponse 0 503 "{}")) None))).
    + reflexivity.
    + exists (createMockResponse 0 503 "{}"). split; [reflexivity|cbn; lia].
  - apply (proj1 (proj2 (proj2 (isRetryable_classification
                                  (mkDefaultHandler flakyClient) None None)))).
    + reflexivity.
    + intros (r & Hr & _). discriminate.
  - apply (proj2 (proj2 (proj2 (isRetryable_classification
                                  (mkDefaultHandler flakyClient)
                                  (Some (createMockResponse 0 404 "{}"))
                                  None)))).
    + reflexivity.
    + exists (createMockResponse 0 404 "{}"). split; [reflexivity|cbn; lia].
Defined.

(** ** Attempt budget and backoff *)

(** C3.  With the retry budget of 3, whatever the sequence of attempt
    outcomes (and whatever the predicate), [retryableAPICall] returns, having
    called the attempt function at least once and at most 4 times; the first
    thing it does is the call of attempt 0, with no sleep before it. *)
Theorem retryableAPICall_attempt_bounds
  (script : nat -> Outcome)
  (retryable : option Response -> option error -> bool) (w : World) :
  exists (o : Outcome) (w' : World) (rest : list Event),
    retryableAPICall (scripted script) defaultMaxRetries retryable w = Ok o w' /\
    trace w' = trace w ++ EvCall (calls w) :: rest /\
    calls_of (EvCall (calls w) :: rest) = seq (calls w) (calls w' - calls w) /\
    (calls w + 1 <= calls w' <= calls w + 4)%nat.
Proof.
  destruct (default_run script retryable w) as (evs & c' & x & Hcall & Hrun).
  destruct (run_head _ _ _ _ _ _ _ _ Hrun) as [rest ->]; [lia|].
  pose proof (run_calls_of _ _ _ _ _ _ _ _ Hrun) as [Hlt Hcalls].
  pose proof (run_calls_bound _ _ _ _ _ _ _ _ Hrun) as Hbound.
  unfold defaultMaxRetries in Hbound. specialize (Hbound ltac:(lia)).
  exists (exit_outcome defaultMaxRetries x), (mkWorld c' (trace w ++ EvCall (calls w) :: rest)), rest.
  cbn [calls trace]. repeat split; try assumption; lia.
Qed.

(** C4.  With the retry budget of 3, the call of attempt 0 is the first
    event of the run, and the call of every attempt [k >= 1] comes right
    after a sleep of [k] times 100 ms (durations are in nanoseconds). *)
Theorem linear_backoff
  (script : nat -> Outcome)
  (retryable : option Response -> option error -> bool) (w : World) :
  exists (o : Outcome) (w' : World) (evs : list Event),
    retryableAPICall (scripted script) defaultMaxRetries retryable w = Ok o w' /\
    trace w' = trace w ++ evs /\
    forall (i n : nat),
      nth_error evs i = Some (EvCall n) ->
      exists k : nat,
        n = (calls w + k)%nat /\ (k <= 3)%nat /\
        ((k = 0%nat /\ i = 0%nat) \/
         ((1 <= k)%nat /\
          exists j, i = S j /\
            nth_error evs j = Some (EvSleep (Z.of_nat k * (100 * Millisecond))))).
Proof.
  destruct (default_run script retryable w) as (evs & c' & x & Hcall & Hrun).
  exists (exit_outcome defaultMaxRetries x), (mkWorld c' (trace w ++ evs)), evs.
  split; [assumption|]. split; [reflexivity|].
  intros i n Hi.
  destruct (default_run_call_index _ _ _ _ _ _ Hrun i n Hi) as [Hn Hc'].
  destruct (run_sleep_before _ _ _ _ _ _ _ _ Hrun ltac:(lia) i n Hi)
    as [_ [(-> & _ & ->)|(Hk & j & -> & Hj)]].
  - exists 0%nat. split; [lia|]. split; [lia|]. left. split; reflexivity.
  - exists (n - calls w)%nat. split; [lia|]. split; [lia|]. right.
    split; [lia|]. exists j. split; [reflexivity|].
    rewrite Hj. rewrite Z.add_0_l.
    rewrite wrap64_small; [reflexivity|].
    unfold defaultRetryDelay, Millisecond. lia.
Qed.

Lemma linear_backoff_witness :
  exists (o : Outcome) (w' : World),
    retryableAPICall
      (Client_Get (mockClient (mkMock (Some (createMockResponse 1 500 "{}")) None))
                  testURL)
      defaultMaxRetries (isRetryable (mkDefaultHandler flakyClient)) initial
    = Ok o w' /\
    nth_error (trace w') 3 = Some (EvCall 1) /\
    nth_error (trace w') 2 = Some (EvSleep 100000000).
Proof.
  destruct (linear_backoff
              (RoundTrip (mockClient (mkMock (Some (createMockResponse 1 500 "{}")) None)) testURL)
              (isRetryable (mkDefaultHandler flakyClient)) initial)
    as (o & w' & evs & Hcall & Htrace & Hsleeps).
  exists o, w'. split; [exact Hcall|].
  vm_compute in Hcall. injection Hcall as _ <-.
  cbn in Htrace. subst evs.
  split; [reflexivity|].
  destruct (Hsleeps 3%nat 1%nat eq_refl) as (k & Hk & _ & [[-> _]|[_ (j & Hj & Hs)]]).
  - discriminate.
  - injection Hj as <-. cbn in Hk. subst k. exact Hs.
Defined.

(** ** Retry exhaustion *)

(** C1.  If each of the 4 attempts yields a retryable outcome (a transport
    error, or a response with status at least 500), [retryableAPICall]
    calls the attempt function exactly 4 times and returns a nil response
    and a non-nil error whose message states "failed after 4 attempts" and
    which wraps the error of the final attempt: that transport error when
    there was one, nothing when the final attempt failed by its status
    code. *)
Theorem retry_exhaustion
  (h : DefaultHandler) (script : nat -> Outcome) (w : World) :
  (forall k : nat,
      (k < 4)%nat ->
      retryable_at script (isRetryable h) (calls w + k) = true) ->
  exists (agg : error) (w' : World) (evs : list Event),
    retryableAPICall (scripted script) defaultMaxRetries (isRetryable h) w
    = Ok (None, Some agg) w' /\
    trace w' = trace w ++ evs /\
    calls w' = (calls w + 4)%nat /\
    calls_of evs = seq (calls w) 4 /\
    Contains (Error agg) "failed after 4 attempts" /\
    Unwrap agg = snd (script (calls w + 3)%nat) /\
    (forall e : error,
        snd (script (calls w + 3)%nat) = Some e ->
        Error agg = ("failed after 4 attempts: " ++ Error e)%string) /\
    (snd (script (calls w + 3)%nat) = None ->
     Error agg = "failed after 4 attempts: %!w(<nil>)").
Proof.
  intros Hall.
  destruct (default_run script (isRetryable h) w)
    as (evs & c' & x & Hcall & Hrun).
  pose proof (run_calls_of _ _ _ _ _ _ _ _ Hrun) as [Hlt Hcalls].
  pose proof (run_calls_bound _ _ _ _ _ _ _ _ Hrun) as Hbound.
  unfold defaultMaxRetries in Hbound. specialize (Hbound ltac:(lia)).
  destruct (run_exit _ _ _ _ _ _ _ _ Hrun) as (n & -> & Hle & Hbefore & Hx).
  destruct x as [r e|r e].
  - destruct Hx as (_ & _ & Hn & _).
    specialize (Hall (n - calls w)%nat ltac:(lia)).
    replace (calls w + (n - calls w))%nat with n in Hall by lia.
    congruence.
  - destruct Hx as (_ & -> & _ & Hcount).
    unfold defaultMaxRetries in Hcount.
    assert (Hn : n = (calls w + 3)%nat) by lia. subst n.
    cbn [exit_outcome] in Hcall. unfold Errorf_d_w in Hcall.
    rewrite failed_after_prefix in Hcall.
    eexists _, _, evs.
    split; [exact Hcall|]. cbn [calls trace].
    split; [reflexivity|]. split; [lia|].
    split; [rewrite Hcalls; f_equal; lia|].
    destruct (snd (script (calls w + 3)%nat)) as [e|]; cbn [Errorf_w Error Unwrap].
    + split; [exists "", (": " ++ Error e)%string; reflexivity|].
      split; [reflexivity|].
      split; [intros e' [= <-]; reflexivity|discriminate].
    + split; [exists "", ": %!w(<nil>)"; reflexivity|].
      split; [reflexivity|].
      split; [discriminate|reflexivity].
Qed.

Lemma retry_exhaustion_witness :
  exists (agg : error) (w' : World),
    retryableAPICall
      (Client_Get (mockClient (mkMock None (Some (errorString "network error"))))
                  testURL)
      defaultMaxRetries (isRetryable (mkDefaultHandler flakyClient)) initial
    = Ok (None, Some agg) w' /\
    calls w' = 4%nat /\
    Error agg = "failed after 4 attempts: network error" /\
    Unwrap agg = Some (errorString "network error").
Proof.
  destruct (retry_exhaustion
              (mkDefaultHandler flakyClient)
              (RoundTrip (mockClient (mkMock None (Some (errorString "network error"))))
                         testURL)
              initial (fun k _ => eq_refl))
    as (agg & w' & evs & Hcall & _ & Hcalls & _ & _ & Hwrap & Hmsg & _).
  exists agg, w'. split; [exact Hcall|]. split; [exact Hcalls|].
  split; [exact (Hmsg _ eq_refl)|exact Hwrap].
Defined.

(** ** [getData] on a terminal first attempt *)

Lemma status_below_threshold_terminal (h : DefaultHandler) (r : Response) :
  StatusCode r < 500 -> isRetryable h (Some r) None = false.
Proof.
  intros Hr. unfold isRetryable, serverErrorThreshold.
  destruct (Z.leb_spec 500 (StatusCode r)); [lia|reflexivity].
Qed.

Lemma first_attempt_terminal (h : DefaultHandler) (url : string) (w : World)
  (r : Response) :
  RoundTrip (httpClient h) url (calls w) = (Some r, None) ->
  StatusCode r < 500 ->
  retryableAPICall (scripted (RoundTrip (httpClient h) url))
    defaultMaxRetries (isRetryable h) w
  = Ok (Some r, None) (mkWorld (S (calls w)) (trace w ++ [EvCall (calls w)])).
Proof.
  intros Hfirst Hr.
  rewrite retryableAPICall_first_terminal.
  - now rewrite Hfirst.
  - unfold retryable_at. rewrite Hfirst.
    now apply status_below_threshold_terminal.
Qed.

(** C6.  When the first attempt yields a response with status 200 whose
    body can be read, [getData] returns a nil error after exactly one
    attempt (one call, then the read, the report and the deferred close). *)
Theorem getData_success
  (h : DefaultHandler) (url : string) (w : World)
  (r : Response) (data : list Byte.byte) :
  RoundTrip (httpClient h) url (calls w) = (Some r, None) ->
  StatusCode r = 200 ->
  read_all (Body r) = ReadOk data ->
  exists w' : World,
    getData h url w = Ok None w' /\
    calls w' = S (calls w) /\
    trace w'
    = trace w ++ [EvCall (calls w);
                  EvReadAll (body_id (Body r));
                  EvPrint ("Received " ++ fmt_d (Z.of_nat (List.length data))
                           ++ " bytes of data" ++ newline)%string;
                  EvClose (body_id (Body r))].
Proof.
  intros Hfirst Hstatus Hread.
  pose proof (first_attempt_terminal h url w r Hfirst ltac:(lia)) as Hcall.
  rewrite (getData_read_ok h url w _ r data Hcall Hstatus Hread).
  eexists. split; [reflexivity|].
  cbn [emit calls trace]. split; [reflexivity|].
  now rewrite <- !app_assoc.
Qed.

Lemma getData_success_witness :
  exists w' : World,
    getData (mkDefaultHandler
               (mockClient (mkMock (Some (createMockResponse 1 200 "{ok}")) None)))
            testURL initial
    = Ok None w' /\
    calls w' = 1%nat.
Proof.
  destruct (getData_success
              (mkDefaultHandler
                 (mockClient (mkMock (Some (createMockResponse 1 200 "{ok}")) None)))
              testURL initial (createMockResponse 1 200 "{ok}")
              (list_byte_of_string "{ok}") eq_refl eq_refl eq_refl)
    as (w' & Hget & Hcalls & _).
  exists w'. split; [exact Hget|exact Hcalls].
Defined.

(** C7.  When the first attempt yields a response whose status is not 200
    and is below 500, the outcome is terminal: [getData] makes exactly one
    attempt and returns a non-nil error whose message is
    "unexpected status code: N", N the status code in decimal. *)
Theorem getData_unexpected_status
  (h : DefaultHandler) (url : string) (w : World) (r : Response) :
  RoundTrip (httpClient h) url (calls w) = (Some r, None) ->
  StatusCode r <> 200 ->
  StatusCode r < 500 ->
  isRetryable h (Some r) None = false /\
  exists (e : error) (w' : World),
    getData h url w = Ok (Some e) w' /\
    calls w' = S (calls w) /\
    trace w' = trace w ++ [EvCall (calls w); EvClose (body_id (Body r))] /\
    Error e = ("unexpected status code: " ++ fmt_d (StatusCode r))%string /\
    Contains (Error e) ("unexpected status code: " ++ fmt_d (StatusCode r)).
Proof.
  intros Hfirst Hne Hlt.
  split; [now apply status_below_threshold_terminal|].
  pose proof (first_attempt_terminal h url w r Hfirst Hlt) as Hcall.
  rewrite (getData_bad_status h url w _ r Hcall Hne).
  eexists _, _. split; [reflexivity|].
  cbn [emit calls trace Errorf_d Error].
  split; [reflexivity|].
  split; [now rewrite <- !app_assoc|].
  split; [reflexivity|].
  apply Contains_refl.
Qed.

Lemma getData_unexpected_status_witness :
  exists (e : error) (w' : World),
    getData (mkDefaultHandler
               (mockClient (mkMock (Some (createMockResponse 1 404 "{}")) None)))
            testURL initial
    = Ok (Some e) w' /\
    calls w' = 1%nat /\
    Error e = "unexpected status code: 404".
Proof.
  destruct (getData_unexpected_status
              (mkDefaultHandler
                 (mockClient (mkMock (Some (createMockResponse 1 404 "{}")) None)))
              testURL initial (createMockResponse 1 404 "{}")
              eq_refl ltac:(discriminate) eq_refl)
    as (_ & e & w' & Hget & Hcalls & _ & Hmsg & _).
  exists e, w'. split; [exact Hget|]. split; [exact Hcalls|exact Hmsg].
Defined.

(** C8.  When the first attempt yields a response with status 200 whose
    body cannot be read, [getData] returns a non-nil error whose message
    contains "failed to read response body" and which wraps the read error;
    exactly one attempt is made: the failure is not retried. *)
Theorem getData_body_read_failure
  (h : DefaultHandler) (url : string) (w : World) (r : Response) (e0 : error) :
  RoundTrip (httpClient h) url (calls w) = (Some r, None) ->
  StatusCode r = 200 ->
  read_all (Body r) = ReadErr e0 ->
  exists (e : error) (w' : World),
    getData h url w = Ok (Some e) w' /\
    calls w' = S (calls w) /\
    trace w' = trace w ++ [EvCall (calls w);
                           EvReadAll (body_id (Body r));
                           EvClose (body_id (Body r))] /\
    Contains (Error e) "failed to read response body" /\
    Error e = ("failed to read response body: " ++ Error e0)%string /\
    Unwrap e = Some e0.
Proof.
  intros Hfirst Hstatus Hread.
  pose proof (first_attempt_terminal h url w r Hfirst ltac:(lia)) as Hcall.
  rewrite (getData_read_failed h url w _ r e0 Hcall Hstatus Hread).
  eexists _, _. split; [reflexivity|].
  cbn [emit calls trace Errorf_w Error Unwrap].
  split; [reflexivity|].
  split; [now rewrite <- !app_assoc|].
  split; [exists "", (": " ++ Error e0)%string; reflexivity|].
  split; reflexivity.
Qed.

Lemma getData_body_read_failure_witness :
  exists (e : error) (w' : World),
    getData (mkDefaultHandler
               (mockClient (mkMock (Some (mkResponse 200 (ErrorReader 1))) None)))
            testURL initial
    = Ok (Some e) w' /\
    calls w' = 1%nat /\
    Error e = "failed to read response body: read error".
Proof.
  destruct (getData_body_read_failure
              (mkDefaultHandler
                 (mockClient (mkMock (Some (mkResponse 200 (ErrorReader 1))) None)))
              testURL initial (mkResponse 200 (ErrorReader 1))
              (errorString "read error") eq_refl eq_refl eq_refl)
    as (e & w' & Hget & Hcalls & _ & _ & Hmsg & _).
  exists e, w'. split; [exact Hget|]. split; [exact Hcalls|exact Hmsg].
Defined.

(** ** Early exit *)

(** The controller stops at the first attempt whose outcome the predicate
    does not ask to retry, and returns that outcome. *)
Lemma early_exit_at (script : nat -> Outcome)
  (retryable : option Response -> option error -> bool) (w : World) (k : nat) :
  (k <= 3)%nat ->
  (forall j : nat,
      (j < k)%nat -> retryable_at script retryable (calls w + j) = true) ->
  retryable_at script retryable (calls w + k) = false ->
  exists pre : list Event,
    retryableAPICall (scripted script) defaultMaxRetries retryable w
    = Ok (script (calls w + k)%nat)
         (mkWorld (S (calls w + k))
                  (trace w ++ pre ++ [EvCall (calls w + k)])).
Proof.
  intros Hk Hbefore Hterm.
  destruct (default_run script retryable w) as (evs & c' & x & Hcall & Hrun).
  destruct (run_exit _ _ _ _ _ _ _ _ Hrun) as (n & -> & Hle & Hretry & Hx).
  assert (Hn : n = (calls w + k)%nat).
  { destruct (Nat.lt_trichotomy n (calls w + k)) as [Hlt|[Heq|Hgt]].
    - exfalso.
      specialize (Hbefore (n - calls w)%nat ltac:(lia)).
      replace (calls w + (n - calls w))%nat with n in Hbefore by lia.
      destruct x as [r e|r e].
      + destruct Hx as (_ & _ & Hn & _). congruence.
      + destruct Hx as (_ & _ & _ & Hcount).
        unfold defaultMaxRetries in Hcount. lia.
    - assumption.
    - exfalso. specialize (Hretry (calls w + k)%nat ltac:(lia)). congruence. }
  subst n.
  destruct x as [r e|r e].
  - destruct Hx as (-> & -> & _ & pre & ->).
    exists pre. rewrite Hcall. cbn [exit_outcome].
    now destruct (script (calls w + k)%nat).
  - destruct Hx as (_ & _ & Hn & _). congruence.
Qed.

(** The controller on a retryable first and a terminal second attempt. *)
Lemma second_attempt_terminal (script : nat -> Outcome)
  (retryable : option Response -> option error -> bool) (w : World) :
  retryable_at script retryable (calls w) = true ->
  retryable_at script retryable (S (calls w)) = false ->
  retryableAPICall (scripted script) defaultMaxRetries retryable w
  = Ok (script (S (calls w)))
       (mkWorld (S (S (calls w)))
          (trace w ++ [EvCall (calls w)] ++ closeEvents (script (calls w))
             ++ [EvSleep (100 * Millisecond); EvCall (S (calls w))])).
Proof.
  intros Hfirst Hsecond.
  destruct (default_run script retryable w) as (evs & c' & x & Hcall & Hrun).
  rewrite Hcall.
  inversion Hrun as [| |a c evs1 c1 x1 _ _ Hrun1]; subst; try congruence.
  - discriminate.
  - inversion Hrun1; subst; try congruence.
    cbn. now destruct (script (S (calls w))).
Qed.

(** C5.  The controller exits on the first outcome that is not retryable,
    returning that outcome after exactly that many attempts.  In
    particular, when the first attempt yields a response with status 500
    and the second one a response with status 200 whose body can be read,
    [getData] returns a nil error after exactly 2 attempts. *)
Theorem early_exit_on_first_terminal_outcome :
  (forall (script : nat -> Outcome)
          (retryable : option Response -> option error -> bool)
          (w : World) (k : nat),
      (k <= 3)%nat ->
      (forall j : nat,
          (j < k)%nat -> retryable_at script retryable (calls w + j) = true) ->
      retryable_at script retryable (calls w + k) = false ->
      exists w' : World,
        retryableAPICall (scripted script) defaultMaxRetries retryable w
        = Ok (script (calls w + k)%nat) w' /\
        calls w' = (calls w + k + 1)%nat) /\
  (forall (h : DefaultHandler) (url : string) (w : World)
          (r1 r2 : Response) (data : list Byte.byte),
      RoundTrip (httpClient h) url (calls w) = (Some r1, None) ->
      StatusCode r1 = 500 ->
      RoundTrip (httpClient h) url (S (calls w)) = (Some r2, None) ->
      StatusCode r2 = 200 ->
      read_all (Body r2) = ReadOk data ->
      exists w' : World,
        getData h url w = Ok None w' /\
        calls w' = (calls w + 2)%nat /\
        trace w'
        = trace w ++ [EvCall (calls w);
                      EvClose (body_id (Body r1));
                      EvSleep (100 * Millisecond);
                      EvCall (S (calls w));
                      EvReadAll (body_id (Body r2));
                      EvPrint ("Received " ++ fmt_d (Z.of_nat (List.length data))
                               ++ " bytes of data" ++ newline)%string;
                      EvClose (body_id (Body r2))]).
Proof.
  split.
  - intros script retryable w k Hk Hbefore Hterm.
    destruct (early_exit_at script retryable w k Hk Hbefore Hterm)
      as [pre Hcall].
    eexists. split; [exact Hcall|]. cbn [calls]. lia.
  - intros h url w r1 r2 data H1 Hs1 H2 Hs2 Hread.
    assert (Hcall := second_attempt_terminal
                       (RoundTrip (httpClient h) url) (isRetryable h) w).
    unfold retryable_at in Hcall. rewrite H1, H2 in Hcall.
    cbn [fst snd] in Hcall. unfold isRetryable, serverErrorThreshold in Hcall.
    rewrite Hs1, Hs2 in Hcall.
    specialize (Hcall eq_refl eq_refl).
    rewrite (getData_read_ok h url w _ r2 data Hcall Hs2 Hread).
    eexists. split; [reflexivity|].
    cbn [emit calls trace closeEvents fst app].
    split; [lia|]. now rewrite <- !app_assoc.
Qed.

Lemma early_exit_on_first_terminal_outcome_witness :
  (exists w' : World,
      retryableAPICall (Client_Get flakyClient testURL) defaultMaxRetries
        (isRetryable (mkDefaultHandler flakyClient)) initial
      = Ok (Some (createMockResponse 1 200 "{status}"), None) w' /\
      calls w' = 2%nat) /\
  (exists w' : World,
      getData (mkDefaultHandler flakyClient) testURL initial = Ok None w' /\
      calls w' = 2%nat).
Proof.
  split.
  - destruct (proj1 early_exit_on_first_terminal_outcome
                (RoundTrip flakyClient testURL)
                (isRetryable (mkDefaultHandler flakyClient)) initial 1%nat)
      as (w' & Hcall & Hcalls).
    + repeat constructor.
    + intros j Hj. destruct j as [|j]; [reflexivity|].
      exfalso. apply Nat.succ_lt_mono in Hj. now apply Nat.nlt_0_r in Hj.
    + reflexivity.
    + exists w'. split; [exact Hcall|exact Hcalls].
  - destruct (proj2 early_exit_on_first_terminal_outcome
                (mkDefaultHandler flakyClient) testURL initial
                (createMockResponse 0 500 "{error}")
                (createMockResponse 1 200 "{status}")
                (list_byte_of_string "{status}")
                eq_refl eq_refl eq_refl eq_refl eq_refl)
      as (w' & Hget & Hcalls & _).
    exists w'. split; [exact Hget|exact Hcalls].
Defined.

(** ** Response bodies are closed *)

Lemma closed_after_next (evs : list Event) (i b : nat) :
  nth_error evs (S i) = Some (EvClose b) -> closed_after evs i b.
Proof.
  intros Hclose. exists (S i). split; [lia|]. split; [assumption|].
  intros m n Hm. lia.
Qed.

Lemma closed_after_app (evs tail : list Event) (i b : nat) :
  closed_after evs i b -> closed_after (evs ++ tail) i b.
Proof.
  intros (j & Hij & Hj & Hbetween).
  assert (Hlen : (j < List.length evs)%nat).
  { apply nth_error_Some. congruence. }
  exists j. split; [assumption|]. split.
  - rewrite nth_error_app1 by assumption. assumption.
  - intros m n Hm. rewrite nth_error_app1 by lia. now apply Hbetween.
Qed.

Lemma call_not_in_tail (evs tail : list Event) (i n : nat) :
  calls_of tail = [] ->
  nth_error (evs ++ tail) i = Some (EvCall n) ->
  nth_error evs i = Some (EvCall n).
Proof.
  intros Htail Hi.
  destruct (Nat.lt_ge_cases i (List.length evs)) as [Hlt|Hge].
  - now rewrite nth_error_app1 in Hi.
  - rewrite nth_error_app2 in Hi by assumption.
    apply nth_error_calls_of in Hi. rewrite Htail in Hi. destruct Hi.
Qed.

Lemma closed_after_last (evs tl : list Event) (i b : nat) :
  S i = List.length evs ->
  calls_of tl = [] ->
  closed_after (evs ++ tl ++ [EvClose b]) i b.
Proof.
  intros Hlast Htl.
  exists (List.length evs + List.length tl)%nat. split; [lia|]. split.
  - rewrite nth_error_app2 by lia.
    rewrite nth_error_app2 by lia.
    replace (List.length evs + List.length tl - List.length evs
             - List.length tl)%nat with 0%nat by lia.
    reflexivity.
  - intros m n Hm Hcall.
    rewrite nth_error_app2 in Hcall by lia.
    rewrite nth_error_app1 in Hcall by lia.
    apply nth_error_calls_of in Hcall. rewrite Htl in Hcall. destruct Hcall.
Qed.

(** What [getData] adds to the trace once the controller has handed it a
    response: no call, and last of all the close of that response's body. *)
Lemma getData_closes_returned (h : DefaultHandler) (url : string)
  (w w1 : World) (r : Response) :
  retryableAPICall (scripted (RoundTrip (httpClient h) url))
    defaultMaxRetries (isRetryable h) w = Ok (Some r, None) w1 ->
  exists (res : option error) (tl : list Event),
    getData h url w
    = Ok res (mkWorld (calls w1)
                      (trace w1 ++ tl ++ [EvClose (body_id (Body r))])) /\
    calls_of tl = [].
Proof.
  intros Hcall.
  destruct (Z.eq_dec (StatusCode r) 200) as [Hok|Hbad].
  - destruct (read_all (Body r)) as [data|e] eqn:Hread.
    + rewrite (getData_read_ok h url w w1 r data Hcall Hok Hread).
      eexists _, [_; _]. unfold emit. cbn [calls trace].
      rewrite <- !app_assoc. split; reflexivity.
    + rewrite (getData_read_failed h url w w1 r e Hcall Hok Hread).
      eexists _, [_]. unfold emit. cbn [calls trace].
      rewrite <- !app_assoc. split; reflexivity.
  - rewrite (getData_bad_status h url w w1 r Hcall Hbad).
    eexists _, []. unfold emit. cbn [calls trace]. split; reflexivity.
Qed.

(** C9.  Every response body obtained during a run is closed before the
    run ends.  In the controller, the body of a response discarded as
    retryable is closed right after the call that produced it, hence before
    the next attempt and before the controller returns.  In [getData], on
    every path (any result, and the panic on a nil response as well), the
    body of every response obtained is closed after the call that produced
    it and before any further call; this includes the response handed to
    [getData], closed when [getData] exits. *)
Theorem response_bodies_closed :
  (forall (script : nat -> Outcome)
          (retryable : option Response -> option error -> bool) (w : World),
      exists (o : Outcome) (w' : World) (evs : list Event),
        retryableAPICall (scripted script) defaultMaxRetries retryable w
        = Ok o w' /\
        trace w' = trace w ++ evs /\
        forall (i n : nat) (r : Response),
          nth_error evs i = Some (EvCall n) ->
          fst (script n) = Some r ->
          retryable_at script retryable n = true ->
          nth_error evs (S i) = Some (EvClose (body_id (Body r)))) /\
  (forall (h : DefaultHandler) (url : string) (w : World),
      exists (w' : World) (evs : list Event),
        ((exists res : option error, getData h url w = Ok res w') \/
         getData h url w = Panic w') /\
        trace w' = trace w ++ evs /\
        forall (i n : nat) (r : Response),
          nth_error evs i = Some (EvCall n) ->
          fst (RoundTrip (httpClient h) url n) = Some r ->
          closed_after evs i (body_id (Body r))).
Proof.
  split.
  - intros script retryable w.
    destruct (default_run script retryable w) as (evs & c' & x & Hcall & Hrun).
    eexists _, _, evs. split; [exact Hcall|]. split; [reflexivity|].
    intros i n r Hi Hresp Hretry.
    exact (run_close_after _ _ _ _ _ _ _ _ Hrun i n r Hi Hretry Hresp).
  - intros h url w.
    destruct (default_run (RoundTrip (httpClient h) url) (isRetryable h) w)
      as (evs & c' & x & Hcall & Hrun).
    assert (Hdiscarded : forall (i n : nat) (r : Response),
               nth_error evs i = Some (EvCall n) ->
               fst (RoundTrip (httpClient h) url n) = Some r ->
               retryable_at (RoundTrip (httpClient h) url) (isRetryable h) n
               = true ->
               closed_after evs i (body_id (Body r))).
    { intros i n r Hi Hresp Hretry. apply closed_after_next.
      exact (run_close_after _ _ _ _ _ _ _ _ Hrun i n r Hi Hretry Hresp). }
    destruct x as [resp err|resp err]; cbn [exit_outcome] in Hcall.
    + destruct err as [e|].
      * (* a non-retryable outcome carries no error *)
        exfalso.
        destruct (run_exit _ _ _ _ _ _ _ _ Hrun) as (n & _ & _ & _ & Hx).
        destruct Hx as (_ & He & Hn & _).
        unfold retryable_at in Hn. rewrite <- He in Hn. discriminate.
      * destruct resp as [r0|].
        -- destruct (getData_closes_returned h url w _ r0 Hcall)
             as (res & tl & Hget & Htl).
           cbn [calls trace] in Hget.
           eexists _, (evs ++ tl ++ [EvClose (body_id (Body r0))]).
           split; [left; exists res; exact Hget|].
           cbn [trace]. split; [now rewrite <- !app_assoc|].
           intros i n r Hi Hresp.
           assert (Htail : calls_of (tl ++ [EvClose (body_id (Body r0))]) = []).
           { rewrite calls_of_app, Htl. reflexivity. }
           apply call_not_in_tail in Hi; [|assumption].
           destruct (retryable_at (RoundTrip (httpClient h) url)
                       (isRetryable h) n) eqn:Hretry.
           ++ apply closed_after_app. now apply (Hdiscarded i n r).
           ++ destruct (run_terminal_last _ _ _ _ _ _ _ _ Hrun i n Hi Hretry)
                as (Hlast & _ & Hx).
              injection Hx as Hr0 _. rewrite Hresp in Hr0.
              injection Hr0 as ->.
              now apply closed_after_last.
        -- rewrite (getData_nil_response h url w _ Hcall).
           eexists _, evs. split; [right; reflexivity|].
           split; [reflexivity|].
           intros i n r Hi Hresp.
           destruct (retryable_at (RoundTrip (httpClient h) url)
                       (isRetryable h) n) eqn:Hretry.
           ++ now apply (Hdiscarded i n r).
           ++ destruct (run_terminal_last _ _ _ _ _ _ _ _ Hrun i n Hi Hretry)
                as (_ & _ & Hx).
              injection Hx as Hr0 _. congruence.
    + rewrite (getData_failed h url w _ _ _ Hcall).
      eexists _, evs. split; [left; eexists; reflexivity|].
      split; [reflexivity|].
      intros i n r Hi Hresp.
      destruct (retryable_at (RoundTrip (httpClient h) url)
                  (isRetryable h) n) eqn:Hretry.
      * now apply (Hdiscarded i n r).
      * destruct (run_terminal_last _ _ _ _ _ _ _ _ Hrun i n Hi Hretry)
          as (_ & _ & Hx).
        discriminate.
Qed.

Lemma response_bodies_closed_witness :
  exists w' : World,
    getData (mkDefaultHandler flakyClient) testURL initial = Ok None w' /\
    closed_after (trace w') 0 0 /\
    closed_after (trace w') 3 1.
Proof.
  destruct (proj2 response_bodies_closed
              (mkDefaultHandler flakyClient) testURL initial)
    as (w' & evs & Hres & Htrace & Hclosed).
  cbn [initial trace app] in Htrace. subst evs.
  destruct Hres as [[res Hget]|Hpanic].
  - exists w'. vm_compute in Hget. injection Hget as <- <-.
    split; [reflexivity|]. split.
    + exact (Hclosed 0%nat 0%nat (createMockResponse 0 500 "{error}")
               eq_refl eq_refl).
    + exact (Hclosed 3%nat 1%nat (createMockResponse 1 200 "{status}")
               eq_refl eq_refl).
  - vm_compute in Hpanic. discriminate.
Defined.

(** ** What the controller hands back *)

(** C10, as stated, fails when responses share a body.  The transport
    [sharedClient] hands out the same body with status 500 and then with
    status 200: the controller closes it after the first attempt and
    returns it from the second, so that the caller receives a response
    whose body the controller has closed. *)
Lemma returned_body_closed_when_shared :
  ~ (forall (h : DefaultHandler) (script : nat -> Outcome) (w w' : World)
            (r : Response) (e : option error) (evs : list Event),
        retryableAPICall (scripted script) defaultMaxRetries (isRetryable h) w
        = Ok (Some r, e) w' ->
        trace w' = trace w ++ evs ->
        ~ In (EvClose (body_id (Body r))) evs).
Proof.
  intros Hopen.
  apply (Hopen (mkDefaultHandler sharedClient)
               (RoundTrip sharedClient testURL) initial
               {| calls := 2;
                  trace := [EvCall 0; EvClose 7; EvSleep 100000000; EvCall 1] |}
               {| StatusCode := 200;
                  Body := {| body_id := 7; read_all := ReadOk [] |} |}
               None
               [EvCall 0; EvClose 7; EvSleep 100000000; EvCall 1]).
  - reflexivity.
  - reflexivity.
  - cbn. right. left. reflexivity.
Qed.

(** C10, amended.  The controller returns after a last call, [n], all
    calls before which had retryable outcomes.  Either the budget is used up
    (call [n] is the 4th one and its outcome is retryable as well): then the
    response returned is nil and the error is not.  Or the outcome of call
    [n] is terminal: then the controller returns exactly that outcome, it
    logs nothing after that call (so it does not close the body it hands
    out), the response, if any, has a status below 500, and its body is none
    the controller has closed, provided no response discarded earlier in the
    run shares it. *)
Theorem controller_result
  (h : DefaultHandler) (script : nat -> Outcome) (w : World) :
  exists (o : Outcome) (w' : World) (evs : list Event) (n : nat),
    retryableAPICall (scripted script) defaultMaxRetries (isRetryable h) w
    = Ok o w' /\
    trace w' = trace w ++ evs /\
    calls w' = S n /\
    (calls w <= n <= calls w + 3)%nat /\
    (forall m : nat,
        (calls w <= m < n)%nat ->
        retryable_at script (isRetryable h) m = true) /\
    ((retryable_at script (isRetryable h) n = true /\
      n = (calls w + 3)%nat /\
      fst o = None /\
      exists agg : error, snd o = Some agg)
     \/
     (retryable_at script (isRetryable h) n = false /\
      o = script n /\
      snd o = None /\
      (exists pre : list Event, evs = pre ++ [EvCall n]) /\
      forall r : Response,
        fst o = Some r ->
        StatusCode r < 500 /\
        ((forall (m : nat) (r' : Response),
             (calls w <= m < n)%nat ->
             fst (script m) = Some r' ->
             body_id (Body r') <> body_id (Body r)) ->
         ~ In (EvClose (body_id (Body r))) evs))).
Proof.
  destruct (default_run script (isRetryable h) w)
    as (evs & c' & x & Hcall & Hrun).
  pose proof (run_calls_bound _ _ _ _ _ _ _ _ Hrun) as Hbound.
  unfold defaultMaxRetries in Hbound. specialize (Hbound ltac:(lia)).
  destruct (run_exit _ _ _ _ _ _ _ _ Hrun) as (n & -> & Hle & Hbefore & Hx).
  exists (exit_outcome defaultMaxRetries x),
    (mkWorld (S n) (trace w ++ evs)), evs, n.
  split; [exact Hcall|]. cbn [calls trace].
  split; [reflexivity|]. split; [reflexivity|]. split; [lia|].
  split; [exact Hbefore|].
  destruct x as [r e|r e]; cbn [exit_outcome fst snd].
  - right. destruct Hx as (-> & -> & Hn & pre & ->).
    split; [exact Hn|].
    split; [now destruct (script n)|].
    assert (Herr : snd (script n) = None).
    { unfold retryable_at, isRetryable in Hn.
      destruct (snd (script n)); [discriminate|reflexivity]. }
    split; [exact Herr|]. split; [now exists pre|].
    intros r Hr. split.
    + unfold retryable_at, isRetryable, serverErrorThreshold in Hn.
      rewrite Herr, Hr in Hn.
      destruct (Z.leb_spec 500 (StatusCode r)); [discriminate|assumption].
    + intros Hfresh Hin.
      destruct (run_closes_discarded _ _ _ _ _ _ _ _ Hrun _ Hin)
        as (m & r' & Hm & Hretry & Hr' & Hid).
      destruct (Nat.eq_dec m n) as [->|Hne]; [congruence|].
      apply (Hfresh m r'); [lia|assumption|assumption].
  - left. destruct Hx as (_ & _ & Hn & Hcount).
    unfold defaultMaxRetries in Hcount.
    split; [exact Hn|]. split; [lia|]. split; [reflexivity|].
    eexists. reflexivity.
Qed.

Lemma controller_result_witness :
  exists (w' : World),
    retryableAPICall (Client_Get flakyClient testURL) defaultMaxRetries
      (isRetryable (mkDefaultHandler flakyClient)) initial
    = Ok (Some (createMockResponse 1 200 "{status}"), None) w' /\
    ~ In (EvClose 1) (trace w').
Proof.
  destruct (controller_result (mkDefaultHandler flakyClient)
              (RoundTrip flakyClient testURL) initial)
    as (o & w' & evs & n & Hcall & Htrace & Hcalls & _ & _ & Hcases).
  cbn [initial trace app] in Htrace. subst evs.
  vm_compute in Hcall. injection Hcall as <- <-.
  cbn [calls] in Hcalls. injection Hcalls as <-.
  exists {| calls := 2;
            trace := [EvCall 0; EvClose 0; EvSleep 100000000; EvCall 1] |}.
  split; [reflexivity|].
  destruct Hcases as [(Hretry & _)|(_ & _ & _ & _ & Hresp)].
  - discriminate.
  - apply (Hresp (createMockResponse 1 200 "{status}") eq_refl).
    intros m r' Hm Hr'.
    destruct m as [|m]; [|exfalso; destruct Hm as [_ Hm];
                           apply Nat.succ_lt_mono in Hm;
                           now apply Nat.nlt_0_r in Hm].
    injection Hr' as <-. discriminate.
Defined.

(** * Further properties of the code *)

(** ** Observations on runs *)

Lemma closes_of_app (l1 l2 : list Event) :
  closes_of (l1 ++ l2) = closes_of l1 ++ closes_of l2.
Proof. apply flat_map_app. Qed.

Lemma reads_of_app (l1 l2 : list Event) :
  reads_of (l1 ++ l2) = reads_of l1 ++ reads_of l2.
Proof. apply flat_map_app. Qed.

Lemma prints_of_app (l1 l2 : list Event) :
  prints_of (l1 ++ l2) = prints_of l1 ++ prints_of l2.
Proof. apply flat_map_app. Qed.

Lemma total_sleep_app (l1 l2 : list Event) :
  total_sleep (l1 ++ l2) = total_sleep l1 + total_sleep l2.
Proof.
  induction l1 as [|ev l1 IH]; [reflexivity|].
  cbn [app total_sleep fold_right]. fold (total_sleep (l1 ++ l2)).
  fold (total_sleep l1). rewrite IH. destruct ev; lia.
Qed.

Lemma closes_of_sleepEvents (a : Z) : closes_of (sleepEvents a) = [].
Proof. unfold sleepEvents. now destruct (0 <? a). Qed.

Lemma closes_of_closeEvents (o : Outcome) :
  closes_of (closeEvents o) = response_body o.
Proof. unfold closeEvents, response_body. now destruct (fst o). Qed.

Lemma total_sleep_closeEvents (o : Outcome) : total_sleep (closeEvents o) = 0.
Proof. unfold closeEvents. now destruct (fst o). Qed.

Lemma total_sleep_sleepEvents (a : Z) :
  0 <= a -> a * defaultRetryDelay < 2 ^ 63 ->
  total_sleep (sleepEvents a) = a * defaultRetryDelay.
Proof.
  intros Ha Hsmall. unfold sleepEvents.
  destruct (Z.ltb_spec 0 a) as [Hpos|Hzero].
  - cbn [total_sleep fold_right]. rewrite wrap64_small; [lia|].
    unfold defaultRetryDelay, Millisecond in *. lia.
  - cbn. lia.
Qed.

Section MoreRunFacts.

Variable script : nat -> Outcome.
Variable retryable : option Response -> option error -> bool.
Variable maxRetries : Z.

Local Abbreviation run := (loop_run script retryable maxRetries).

(** The loop reads no body and prints nothing. *)
Lemma run_no_io a c evs c' x :
  run a c evs c' x -> reads_of evs = [] /\ prints_of evs = [].
Proof.
  assert (Hsleep : forall a0, reads_of (sleepEvents a0) = []
                              /\ prints_of (sleepEvents a0) = []).
  { intros a0. unfold sleepEvents. now destruct (0 <? a0). }
  assert (Hclose : forall o, reads_of (closeEvents o) = []
                             /\ prints_of (closeEvents o) = []).
  { intros o. unfold closeEvents. now destruct (fst o). }
  induction 1 as [a c Hr|a c Hr Ha|a c evs c' x Hr Ha Hrun [IHr IHp]].
  - rewrite reads_of_app, prints_of_app.
    destruct (Hsleep a) as [-> ->]. split; reflexivity.
  - rewrite !reads_of_app, !prints_of_app.
    destruct (Hsleep a) as [-> ->].
    destruct (Hclose (script c)) as [-> ->]. split; reflexivity.
  - rewrite !reads_of_app, !prints_of_app.
    destruct (Hsleep a) as [-> ->].
    destruct (Hclose (script c)) as [-> ->].
    rewrite IHr, IHp. split; reflexivity.
Qed.

(** The bodies a run closes are those that came with its calls, in order:
    all of them when the loop is left by exhaustion, all but the one of the
    last call when it is left by [return]. *)
Lemma run_closes_of a c evs c' x :
  run a c evs c' x ->
  closes_of evs
  = flat_map (fun n => response_body (script n))
      (seq c (c' - c - match x with Returned _ _ => 1 | Fell _ _ => 0 end)).
Proof.
  induction 1 as [a c Hr|a c Hr Ha|a c evs c' x Hr Ha Hrun IH].
  - rewrite closes_of_app, closes_of_sleepEvents.
    replace (S c - c - 1)%nat with 0%nat by lia. reflexivity.
  - rewrite !closes_of_app, closes_of_sleepEvents, closes_of_closeEvents.
    replace (S c - c - 0)%nat with 1%nat by lia.
    cbn. now rewrite app_nil_r.
  - pose proof (run_calls_of _ _ _ _ _ _ _ _ Hrun) as [Hlt _].
    rewrite !closes_of_app, closes_of_sleepEvents, closes_of_closeEvents, IH.
    cbn [app closes_of flat_map].
    destruct x as [r e|r e].
    + replace (c' - c - 1)%nat with (S (c' - S c - 1)) by lia. reflexivity.
    + replace (c' - c - 0)%nat with (S (c' - S c - 0)) by lia. reflexivity.
Qed.

(** Twice the time slept in a run that makes [m] calls, entered at attempt
    [a], is [defaultRetryDelay * m * (2a + m - 1)]. *)
Lemma run_total_sleep a c evs c' x :
  run a c evs c' x ->
  0 <= a <= maxRetries ->
  maxRetries * defaultRetryDelay < 2 ^ 63 ->
  2 * total_sleep evs
  = defaultRetryDelay * Z.of_nat (c' - c) * (2 * a + Z.of_nat (c' - c) - 1).
Proof.
  assert (Hdelay : 0 < defaultRetryDelay) by reflexivity.
  induction 1 as [a c Hr|a c Hr Ha|a c evs c' x Hr Ha Hrun IH];
    intros Hrange Hsmall.
  - replace (S c - c)%nat with 1%nat by lia.
    rewrite total_sleep_app, total_sleep_sleepEvents by nia.
    cbn [total_sleep fold_right]. change (Z.of_nat 1) with 1. ring.
  - replace (S c - c)%nat with 1%nat by lia.
    rewrite !total_sleep_app, total_sleep_sleepEvents, total_sleep_closeEvents
      by nia.
    cbn [total_sleep fold_right]. change (Z.of_nat 1) with 1. ring.
  - pose proof (run_calls_of _ _ _ _ _ _ _ _ Hrun) as [Hlt _].
    specialize (IH ltac:(lia) Hsmall).
    rewrite !total_sleep_app, total_sleep_sleepEvents, total_sleep_closeEvents
      by nia.
    cbn [total_sleep fold_right].
    replace (Z.of_nat (c' - c)) with (Z.of_nat (c' - S c) + 1) by lia.
    rewrite !Z.mul_add_distr_l, IH. ring.
Qed.

(** Every call a run logs has an index from [c] up to [c' - 1]. *)
Lemma run_call_index a c evs c' x :
  run a c evs c' x ->
  forall (i n : nat),
    nth_error evs i = Some (EvCall n) -> (c <= n < c')%nat.
Proof.
  intros Hrun i n Hi.
  pose proof (run_calls_of _ _ _ _ _ _ _ _ Hrun) as [Hlt Hcalls].
  apply nth_error_calls_of in Hi. rewrite Hcalls in Hi.
  apply in_seq in Hi. lia.
Qed.

End MoreRunFacts.

(** ** The controller with any retry budget *)

Lemma string_append_assoc (a b c : string) :
  ((a ++ b) ++ c)%string = (a ++ b ++ c)%string.
Proof.
  induction a as [|ch a IH]; [reflexivity|].
  cbn [append]. now rewrite IH.
Qed.

(** X1.  For every retry budget from 0 up (an [int]), every sequence of
    outcomes and every predicate, [retryableAPICall] returns, starts with
    the call of attempt 0 and makes at least one and at most
    [maxRetries + 1] calls. *)
Theorem retryableAPICall_any_budget
  (script : nat -> Outcome)
  (retryable : option Response -> option error -> bool)
  (maxRetries : Z) (w : World) :
  0 <= maxRetries < 2 ^ 63 ->
  exists (o : Outcome) (w' : World) (rest : list Event),
    retryableAPICall (scripted script) maxRetries retryable w = Ok o w' /\
    trace w' = trace w ++ EvCall (calls w) :: rest /\
    calls_of (EvCall (calls w) :: rest) = seq (calls w) (calls w' - calls w) /\
    (calls w < calls w')%nat /\
    Z.of_nat (calls w' - calls w) <= maxRetries + 1.
Proof.
  intros [Hnonneg Hint].
  destruct (retryableAPICall_run script retryable maxRetries Hint w Hnonneg)
    as (evs & c' & x & Hcall & Hrun).
  destruct (run_head _ _ _ _ _ _ _ _ Hrun) as [rest ->]; [lia|].
  pose proof (run_calls_of _ _ _ _ _ _ _ _ Hrun) as [Hlt Hcalls].
  pose proof (run_calls_bound _ _ _ _ _ _ _ _ Hrun ltac:(lia)) as Hbound.
  eexists _, _, rest. split; [exact Hcall|]. cbn [calls trace].
  repeat split; try assumption; lia.
Qed.

Lemma retryableAPICall_any_budget_witness :
  exists (o : Outcome) (w' : World),
    retryableAPICall (Client_Get sharedClient testURL) 0
      (isRetryable (mkDefaultHandler sharedClient)) initial = Ok o w' /\
    calls w' = 1%nat.
Proof.
  destruct (retryableAPICall_any_budget
              (RoundTrip sharedClient testURL)
              (isRetryable (mkDefaultHandler sharedClient)) 0 initial)
    as (o & w' & rest & Hcall & _ & _ & Hlt & Hbound).
  - lia.
  - exists o, w'. split; [exact Hcall|].
    cbn [initial calls] in Hlt, Hbound. lia.
Defined.

(** X2.  For every retry budget [maxRetries] from 0 up and every predicate:
    if the first [maxRetries + 1] outcomes are all retryable, the controller
    makes exactly [maxRetries + 1] calls and returns a nil response with an
    error that states that count and wraps the error of the final attempt
    (nothing if that attempt came without an error). *)
Theorem exhaustion_any_budget
  (script : nat -> Outcome)
  (retryable : option Response -> option error -> bool)
  (maxRetries : Z) (w : World) :
  0 <= maxRetries < 2 ^ 63 - 1 ->
  (forall k : nat,
      Z.of_nat k <= maxRetries ->
      retryable_at script retryable (calls w + k) = true) ->
  exists (agg : error) (w' : World) (evs : list Event),
    retryableAPICall (scripted script) maxRetries retryable w
    = Ok (None, Some agg) w' /\
    trace w' = trace w ++ evs /\
    calls_of evs = seq (calls w) (Z.to_nat (maxRetries + 1)) /\
    calls w' = (calls w + Z.to_nat (maxRetries + 1))%nat /\
    Unwrap agg = snd (script (calls w + Z.to_nat maxRetries)%nat) /\
    Error agg
    = (("failed after " ++ fmt_d (maxRetries + 1) ++ " attempts: ")
       ++ match snd (script (calls w + Z.to_nat maxRetries)%nat) with
          | Some e => Error e
          | None => "%!w(<nil>)"
          end)%string.
Proof.
  intros [Hnonneg Hint] Hall.
  destruct (retryableAPICall_run script retryable maxRetries
              ltac:(lia) w Hnonneg)
    as (evs & c' & x & Hcall & Hrun).
  pose proof (run_calls_of _ _ _ _ _ _ _ _ Hrun) as [Hlt Hcalls].
  pose proof (run_calls_bound _ _ _ _ _ _ _ _ Hrun ltac:(lia)) as Hbound.
  destruct (run_exit _ _ _ _ _ _ _ _ Hrun) as (n & -> & Hle & _ & Hx).
  destruct x as [r e|r e].
  - destruct Hx as (_ & _ & Hn & _).
    specialize (Hall (n - calls w)%nat ltac:(lia)).
    replace (calls w + (n - calls w))%nat with n in Hall by lia.
    congruence.
  - destruct Hx as (_ & -> & _ & Hcount).
    assert (Hn : n = (calls w + Z.to_nat maxRetries)%nat) by lia. subst n.
    cbn [exit_outcome] in Hcall. unfold Errorf_d_w in Hcall.
    rewrite wrap64_small in Hcall by lia.
    eexists _, _, evs. split; [exact Hcall|]. cbn [calls trace].
    split; [reflexivity|].
    split; [rewrite Hcalls; f_equal; lia|].
    split; [lia|].
    destruct (snd (script (calls w + Z.to_nat maxRetries)%nat));
      split; reflexivity.
Qed.

Lemma exhaustion_any_budget_witness :
  exists (agg : error) (w' : World),
    retryableAPICall
      (Client_Get (mockClient (mkMock None (Some (errorString "network error"))))
                  testURL)
      1 (isRetryable (mkDefaultHandler flakyClient)) initial
    = Ok (None, Some agg) w' /\
    calls w' = 2%nat /\
    Error agg = "failed after 2 attempts: network error".
Proof.
  destruct (exhaustion_any_budget
              (RoundTrip (mockClient (mkMock None (Some (errorString "network error"))))
                         testURL)
              (isRetryable (mkDefaultHandler flakyClient)) 1 initial)
    as (agg & w' & evs & Hcall & _ & _ & Hcalls & _ & Hmsg).
  - lia.
  - intros k _. reflexivity.
  - exists agg, w'. split; [exact Hcall|]. split; [exact Hcalls|exact Hmsg].
Defined.

(** X3.  With a negative retry budget the loop body never runs: whatever
    the attempt function, it is not called, nothing at all happens, and
    the controller returns a nil response with an error that counts
    [maxRetries + 1] attempts (zero or less) and wraps nothing. *)
Theorem negative_budget_makes_no_attempt
  (fn : M Outcome) (retryable : option Response -> option error -> bool)
  (maxRetries : Z) (w : World) :
  - 2 ^ 63 <= maxRetries < 0 ->
  retryableAPICall fn maxRetries retryable w
  = Ok (None,
        Some (errorString
                ("failed after " ++ fmt_d (maxRetries + 1)
                 ++ " attempts: %!w(<nil>)")%string))
       w.
Proof.
  intros Hneg.
  unfold retryableAPICall, bind, retry_fuel. cbn [retry_loop].
  destruct (Z.leb_spec 0 maxRetries); [lia|].
  unfold ret, Errorf_d_w, Errorf_w.
  rewrite wrap64_small by lia.
  now rewrite !string_append_assoc.
Qed.

Lemma negative_budget_makes_no_attempt_witness :
  retryableAPICall (Client_Get flakyClient testURL) (-1)
    (isRetryable (mkDefaultHandler flakyClient)) initial
  = Ok (None, Some (errorString "failed after 0 attempts: %!w(<nil>)")) initial.
Proof.
  apply (negative_budget_makes_no_attempt
           (Client_Get flakyClient testURL)
           (isRetryable (mkDefaultHandler flakyClient)) (-1) initial).
  lia.
Defined.

(** X4.  For every retry budget up to 92233720368 (beyond it the 64-bit
    product [attempt * defaultRetryDelay] wraps), the call of attempt 0 is
    the first event and the call of every attempt [k >= 1] comes right
    after a sleep of exactly [k] times 100 ms. *)
Theorem backoff_any_budget
  (script : nat -> Outcome)
  (retryable : option Response -> option error -> bool)
  (maxRetries : Z) (w : World) :
  0 <= maxRetries <= 92233720368 ->
  exists (o : Outcome) (w' : World) (evs : list Event),
    retryableAPICall (scripted script) maxRetries retryable w = Ok o w' /\
    trace w' = trace w ++ evs /\
    forall (i n : nat),
      nth_error evs i = Some (EvCall n) ->
      exists k : nat,
        n = (calls w + k)%nat /\ Z.of_nat k <= maxRetries /\
        ((k = 0%nat /\ i = 0%nat) \/
         ((1 <= k)%nat /\
          exists j, i = S j /\
            nth_error evs j = Some (EvSleep (Z.of_nat k * (100 * Millisecond))))).
Proof.
  intros Hrange.
  destruct (retryableAPICall_run script retryable maxRetries
              ltac:(lia) w ltac:(lia))
    as (evs & c' & x & Hcall & Hrun).
  eexists _, _, evs. split; [exact Hcall|]. split; [reflexivity|].
  intros i n Hi.
  pose proof (run_call_index _ _ _ _ _ _ _ _ Hrun i n Hi) as Hn.
  pose proof (run_calls_bound _ _ _ _ _ _ _ _ Hrun ltac:(lia)) as Hbound.
  destruct (run_sleep_before _ _ _ _ _ _ _ _ Hrun ltac:(lia) i n Hi)
    as [_ [(-> & _ & ->)|(Hk & j & -> & Hj)]].
  - exists 0%nat. split; [lia|]. split; [lia|]. left. split; reflexivity.
  - exists (n - calls w)%nat. split; [lia|]. split; [lia|]. right.
    split; [lia|]. exists j. split; [reflexivity|].
    rewrite Hj, Z.add_0_l.
    rewrite wrap64_small; [reflexivity|].
    unfold defaultRetryDelay, Millisecond. lia.
Qed.

Lemma backoff_any_budget_witness :
  exists (o : Outcome) (w' : World),
    retryableAPICall
      (Client_Get (mockClient (mkMock None (Some (errorString "network error"))))
                  testURL)
      5 (isRetryable (mkDefaultHandler flakyClient)) initial
    = Ok o w' /\
    nth_error (trace w') 10 = Some (EvCall 5) /\
    nth_error (trace w') 9 = Some (EvSleep 500000000).
Proof.
  destruct (backoff_any_budget
              (RoundTrip (mockClient (mkMock None (Some (errorString "network error"))))
                         testURL)
              (isRetryable (mkDefaultHandler flakyClient)) 5 initial
              ltac:(lia))
    as (o & w' & evs & Hcall & Htrace & Hsleeps).
  exists o, w'. split; [exact Hcall|].
  vm_compute in Hcall. injection Hcall as _ <-.
  cbn in Htrace. subst evs.
  split; [reflexivity|].
  destruct (Hsleeps 10%nat 5%nat eq_refl)
    as (k & Hk & _ & [[-> _]|[_ (j & Hj & Hs)]]).
  - discriminate.
  - injection Hj as <-. cbn in Hk. subst k. exact Hs.
Defined.

(** X5.  With the handler's budget of 3, a run of the controller that makes
    [m] calls sleeps [m (m - 1) / 2] times 100 ms in total (0, 100, 300 or
    600 ms), hence never more than 600 ms. *)
Theorem total_backoff
  (script : nat -> Outcome)
  (retryable : option Response -> option error -> bool) (w : World) :
  exists (o : Outcome) (w' : World) (evs : list Event),
    retryableAPICall (scripted script) defaultMaxRetries retryable w = Ok o w' /\
    trace w' = trace w ++ evs /\
    2 * total_sleep evs
    = (100 * Millisecond) * Z.of_nat (calls w' - calls w)
      * (Z.of_nat (calls w' - calls w) - 1) /\
    0 <= total_sleep evs <= 600 * Millisecond.
Proof.
  destruct (default_run script retryable w) as (evs & c' & x & Hcall & Hrun).
  pose proof (run_calls_of _ _ _ _ _ _ _ _ Hrun) as [Hlt _].
  pose proof (run_calls_bound _ _ _ _ _ _ _ _ Hrun) as Hbound.
  pose proof (run_total_sleep _ _ _ _ _ _ _ _ Hrun) as Hsleep.
  unfold defaultMaxRetries in Hbound, Hsleep.
  specialize (Hbound ltac:(lia)).
  specialize (Hsleep ltac:(lia) ltac:(reflexivity)).
  eexists _, _, evs. split; [exact Hcall|]. cbn [calls trace].
  split; [reflexivity|].
  unfold defaultRetryDelay in Hsleep.
  split; [rewrite Hsleep; ring|].
  unfold Millisecond in *.
  assert (Hm : Z.of_nat (c' - calls w) = 1 \/ Z.of_nat (c' - calls w) = 2 \/
               Z.of_nat (c' - calls w) = 3 \/ Z.of_nat (c' - calls w) = 4)
    by lia.
  destruct Hm as [Hm|[Hm|[Hm|Hm]]]; rewrite Hm in Hsleep; lia.
Qed.

(** ** [getData], case by case *)

(** A run with the handler's budget ends at its attempt [k <= 3], the first
    one whose outcome is not retryable, or at attempt 3 if there is none. *)
Lemma default_run_exit (script : nat -> Outcome)
  (retryable : option Response -> option error -> bool)
  (c : nat) (evs : list Event) (c' : nat) (x : LoopExit) :
  loop_run script retryable defaultMaxRetries 0 c evs c' x ->
  exists k : nat,
    (k <= 3)%nat /\ c' = S (c + k) /\
    (forall j : nat, (j < k)%nat -> retryable_at script retryable (c + j) = true) /\
    match x with
    | Returned r e =>
        r = fst (script (c + k)%nat) /\ e = snd (script (c + k)%nat) /\
        retryable_at script retryable (c + k) = false
    | Fell r e =>
        k = 3%nat /\
        r = fst (script (c + k)%nat) /\ e = snd (script (c + k)%nat) /\
        retryable_at script retryable (c + k) = true
    end.
Proof.
  intros Hrun.
  pose proof (run_calls_bound _ _ _ _ _ _ _ _ Hrun) as Hbound.
  unfold defaultMaxRetries in Hbound. specialize (Hbound ltac:(lia)).
  destruct (run_exit _ _ _ _ _ _ _ _ Hrun) as (n & -> & Hle & Hbefore & Hx).
  exists (n - c)%nat.
  replace (c + (n - c))%nat with n by lia.
  split; [lia|]. split; [reflexivity|]. split.
  - intros j Hj. apply Hbefore. lia.
  - destruct x as [r e|r e].
    + destruct Hx as (-> & -> & Hn & _). repeat split. exact Hn.
    + destruct Hx as (-> & -> & Hn & Hcount).
      unfold defaultMaxRetries in Hcount.
      split; [lia|]. repeat split. exact Hn.
Qed.

(** What [getData] does, by the way the controller's loop was left. *)
Lemma getData_cases (h : DefaultHandler) (url : string) (w : World) :
  exists (evs : list Event) (c' : nat) (x : LoopExit),
    loop_run (RoundTrip (httpClient h) url) (isRetryable h) defaultMaxRetries
             0 (calls w) evs c' x /\
    match x with
    | Fell _ err =>
        getData h url w
        = Ok (Some (Errorf_w "failed to make HTTP request: "
                      (Some (Errorf_w "failed after 4 attempts: " err))))
             (mkWorld c' (trace w ++ evs))
    | Returned _ (Some _) => False
    | Returned None None =>
        getData h url w = Panic (mkWorld c' (trace w ++ evs))
    | Returned (Some r) None =>
        StatusCode r < 500 /\
        getData h url w
        = if StatusCode r =? 200 then
            match read_all (Body r) with
            | ReadOk data =>
                Ok None
                   (mkWorld c'
                      (trace w ++ evs
                       ++ [EvReadAll (body_id (Body r));
                           EvPrint ("Received "
                                    ++ fmt_d (Z.of_nat (List.length data))
                                    ++ " bytes of data" ++ newline)%string;
                           EvClose (body_id (Body r))]))
            | ReadErr e =>
                Ok (Some (Errorf_w "failed to read response body: " (Some e)))
                   (mkWorld c'
                      (trace w ++ evs
                       ++ [EvReadAll (body_id (Body r));
                           EvClose (body_id (Body r))]))
            end
          else
            Ok (Some (Errorf_d "unexpected status code: " (StatusCode r)))
               (mkWorld c' (trace w ++ evs ++ [EvClose (body_id (Body r))]))
    end.
Proof.
  destruct (default_run (RoundTrip (httpClient h) url) (isRetryable h) w)
    as (evs & c' & x & Hcall & Hrun).
  exists evs, c', x. split; [exact Hrun|].
  destruct (default_run_exit _ _ _ _ _ _ Hrun) as (k & _ & _ & _ & Hx).
  destruct x as [r e|r e]; cbn [exit_outcome] in Hcall.
  - destruct Hx as (Hr & He & Hn).
    unfold retryable_at in Hn. rewrite <- Hr, <- He in Hn.
    destruct e as [e|]; [discriminate Hn|].
    destruct r as [r|].
    + assert (Hlt : StatusCode r < 500).
      { unfold isRetryable, serverErrorThreshold in Hn.
        destruct (Z.leb_spec 500 (StatusCode r)); [discriminate|assumption]. }
      split; [exact Hlt|].
      destruct (Z.eqb_spec (StatusCode r) 200) as [Hok|Hbad].
      * destruct (read_all (Body r)) as [data|e] eqn:Hread.
        -- rewrite (getData_read_ok h url w _ r data Hcall Hok Hread).
           unfold emit. cbn [calls trace]. now rewrite <- !app_assoc.
        -- rewrite (getData_read_failed h url w _ r e Hcall Hok Hread).
           unfold emit. cbn [calls trace]. now rewrite <- !app_assoc.
      * rewrite (getData_bad_status h url w _ r Hcall Hbad).
        unfold emit. cbn [calls trace]. now rewrite <- !app_assoc.
    + exact (getData_nil_response h url w _ Hcall).
  - unfold Errorf_d_w in Hcall. rewrite failed_after_prefix in Hcall.
    exact (getData_failed h url w _ _ _ Hcall).
Qed.

(** A run with the handler's budget ends at the first attempt whose outcome
    is not retryable, when there is one among the four. *)
Lemma run_ends_at (script : nat -> Outcome)
  (retryable : option Response -> option error -> bool)
  (c : nat) (evs : list Event) (c' : nat) (x : LoopExit) (k : nat) :
  loop_run script retryable defaultMaxRetries 0 c evs c' x ->
  (k <= 3)%nat ->
  (forall j : nat, (j < k)%nat -> retryable_at script retryable (c + j) = true) ->
  retryable_at script retryable (c + k) = false ->
  c' = S (c + k) /\
  x = Returned (fst (script (c + k)%nat)) (snd (script (c + k)%nat)).
Proof.
  intros Hrun Hk Hbefore Hterm.
  destruct (default_run_exit _ _ _ _ _ _ Hrun) as (k' & Hk' & -> & Hbefore' & Hx).
  assert (Heq : k' = k).
  { destruct (Nat.lt_trichotomy k' k) as [Hlt|[Heq|Hgt]].
    - exfalso. specialize (Hbefore k' Hlt).
      destruct x as [r e|r e].
      + destruct Hx as (_ & _ & Hn). congruence.
      + destruct Hx as (Hthree & _). lia.
    - assumption.
    - exfalso. specialize (Hbefore' k Hgt). congruence. }
  subst k'. split; [reflexivity|].
  destruct x as [r e|r e].
  - destruct Hx as (-> & -> & _). reflexivity.
  - destruct Hx as (_ & _ & _ & Hn). congruence.
Qed.

(** A run with the handler's budget on four retryable outcomes uses them
    all up. *)
Lemma run_exhausts (script : nat -> Outcome)
  (retryable : option Response -> option error -> bool)
  (c : nat) (evs : list Event) (c' : nat) (x : LoopExit) :
  loop_run script retryable defaultMaxRetries 0 c evs c' x ->
  (forall k : nat, (k < 4)%nat -> retryable_at script retryable (c + k) = true) ->
  c' = (c + 4)%nat /\
  x = Fell (fst (script (c + 3)%nat)) (snd (script (c + 3)%nat)).
Proof.
  intros Hrun Hall.
  destruct (default_run_exit _ _ _ _ _ _ Hrun) as (k & Hk & -> & _ & Hx).
  destruct x as [r e|r e].
  - destruct Hx as (_ & _ & Hn).
    specialize (Hall k ltac:(lia)). congruence.
  - destruct Hx as (-> & -> & -> & _). split; [lia|reflexivity].
Qed.

Lemma outcome_eta (o : Outcome) (r : option Response) (e : option error) :
  r = fst o -> e = snd o -> o = (r, e).
Proof. intros -> ->. now destruct o. Qed.

(** ** What [Handle] reports *)

(** X6.  [Handle] returns a nil error exactly when, among at most four
    attempts, the first outcome that is not retryable is a response with
    status 200 whose body can be read. *)
Theorem Handle_succeeds_iff (h : DefaultHandler) (url : string) (w : World) :
  (exists w' : World, Handle h url w = Ok None w') <->
  (exists (k : nat) (r : Response) (data : list Byte.byte),
      (k <= 3)%nat /\
      (forall j : nat,
          (j < k)%nat ->
          retryable_at (RoundTrip (httpClient h) url) (isRetryable h)
                       (calls w + j) = true) /\
      RoundTrip (httpClient h) url (calls w + k) = (Some r, None) /\
      StatusCode r = 200 /\
      read_all (Body r) = ReadOk data).
Proof.
  change (Handle h url w) with (getData h url w).
  destruct (getData_cases h url w) as (evs & c' & x & Hrun & Hget).
  split.
  - intros [w' Hok].
    destruct (default_run_exit _ _ _ _ _ _ Hrun) as (k & Hk & _ & Hbefore & Hx).
    destruct x as [[r|] [e|]|r e]; try contradiction.
    + destruct Hget as [_ Hget]. rewrite Hget in Hok.
      destruct Hx as (Hr & He & _).
      destruct (Z.eqb_spec (StatusCode r) 200) as [Hstatus|_];
        [|discriminate].
      destruct (read_all (Body r)) as [data|e] eqn:Hread; [|discriminate].
      exists k, r, data. split; [exact Hk|]. split; [exact Hbefore|].
      split; [now apply outcome_eta|]. split; [exact Hstatus|exact Hread].
    + rewrite Hget in Hok. discriminate.
    + rewrite Hget in Hok. discriminate.
  - intros (k & r & data & Hk & Hbefore & Hout & Hstatus & Hread).
    assert (Hterm : retryable_at (RoundTrip (httpClient h) url) (isRetryable h)
                      (calls w + k) = false).
    { unfold retryable_at. rewrite Hout.
      apply status_below_threshold_terminal. lia. }
    destruct (run_ends_at _ _ _ _ _ _ k Hrun Hk Hbefore Hterm) as [_ ->].
    rewrite Hout in Hget. cbn [fst snd] in Hget.
    destruct Hget as [_ Hget]. rewrite Hget, Hstatus, Hread.
    cbn [Z.eqb Pos.eqb]. eauto.
Qed.


(** X8.  When each of the four attempts yields a retryable outcome,
    [Handle] makes exactly 4 calls, reads no body, prints nothing and
    returns an error whose message is "failed to make HTTP request: failed
    after 4 attempts: " followed by the cause; it wraps the controller's
    error, which in turn wraps the error of the final attempt (nothing if
    that attempt failed by its status code only). *)
Theorem Handle_exhaustion (h : DefaultHandler) (url : string) (w : World) :
  (forall k : nat,
      (k < 4)%nat ->
      retryable_at (RoundTrip (httpClient h) url) (isRetryable h) (calls w + k)
      = true) ->
  exists (e agg : error) (w' : World) (evs : list Event),
    Handle h url w = Ok (Some e) w' /\
    trace w' = trace w ++ evs /\
    calls w' = (calls w + 4)%nat /\
    reads_of evs = [] /\ prints_of evs = [] /\
    Unwrap e = Some agg /\
    Unwrap agg = snd (RoundTrip (httpClient h) url (calls w + 3)) /\
    Error e
    = ("failed to make HTTP request: failed after 4 attempts: "
       ++ match snd (RoundTrip (httpClient h) url (calls w + 3)) with
          | Some cause => Error cause
          | None => "%!w(<nil>)"
          end)%string /\
    Contains (Error e) "failed after 4 attempts".
Proof.
  intros Hall.
  change (Handle h url w) with (getData h url w).
  destruct (getData_cases h url w) as (evs & c' & x & Hrun & Hget).
  destruct (run_exhausts _ _ _ _ _ _ Hrun Hall) as [-> ->].
  destruct (run_no_io _ _ _ _ _ _ _ _ Hrun) as [Hreads Hprints].
  eexists _, _, _, evs. split; [exact Hget|]. cbn [calls trace].
  split; [reflexivity|]. split; [reflexivity|].
  split; [exact Hreads|]. split; [exact Hprints|].
  cbn [Errorf_w Unwrap Error].
  split; [reflexivity|].
  destruct (snd (RoundTrip (httpClient h) url (calls w + 3))) as [cause|];
    cbn [Errorf_w Unwrap Error].
  - split; [reflexivity|]. split; [reflexivity|].
    exists "failed to make HTTP request: ", (": " ++ Error cause)%string.
    reflexivity.
  - split; [reflexivity|]. split; [reflexivity|].
    exists "failed to make HTTP request: ", ": %!w(<nil>)". reflexivity.
Qed.

Lemma Handle_exhaustion_witness :
  exists (e : error) (w' : World),
    Handle (mkDefaultHandler
              (mockClient (mkMock (Some (createMockResponse 1 503 "{}")) None)))
           testURL initial
    = Ok (Some e) w' /\
    calls w' = 4%nat /\
    Error e
    = "failed to make HTTP request: failed after 4 attempts: %!w(<nil>)".
Proof.
  destruct (Handle_exhaustion
              (mkDefaultHandler
                 (mockClient (mkMock (Some (createMockResponse 1 503 "{}")) None)))
              testURL initial (fun k _ => eq_refl))
    as (e & agg & w' & evs & Hget & _ & Hcalls & _ & _ & _ & _ & Hmsg & _).
  exists e, w'. split; [exact Hget|]. split; [exact Hcalls|exact Hmsg].
Defined.

(** X9.  When, among at most four attempts, the first outcome that is not
    retryable is a response that [Handle] cannot accept, [Handle] stops
    there, after as many calls, with an error: "unexpected status code: N"
    if the status is not 200, and otherwise, the body being unreadable,
    "failed to read response body: " followed by the read error, which it
    wraps. *)
Theorem Handle_terminal_failure
  (h : DefaultHandler) (url : string) (w : World) (k : nat) (r : Response) :
  (k <= 3)%nat ->
  (forall j : nat,
      (j < k)%nat ->
      retryable_at (RoundTrip (httpClient h) url) (isRetryable h) (calls w + j)
      = true) ->
  RoundTrip (httpClient h) url (calls w + k) = (Some r, None) ->
  StatusCode r < 500 ->
  StatusCode r <> 200 \/ (exists e0 : error, read_all (Body r) = ReadErr e0) ->
  exists (e : error) (w' : World),
    Handle h url w = Ok (Some e) w' /\
    calls w' = S (calls w + k) /\
    ((StatusCode r <> 200 /\
      Error e = ("unexpected status code: " ++ fmt_d (StatusCode r))%string /\
      Unwrap e = None)
     \/
     (StatusCode r = 200 /\
      exists e0 : error,
        read_all (Body r) = ReadErr e0 /\
        Error e = ("failed to read response body: " ++ Error e0)%string /\
        Unwrap e = Some e0)).
Proof.
  intros Hk Hbefore Hout Hlt Hbad.
  change (Handle h url w) with (getData h url w).
  destruct (getData_cases h url w) as (evs & c' & x & Hrun & Hget).
  assert (Hterm : retryable_at (RoundTrip (httpClient h) url) (isRetryable h)
                    (calls w + k) = false).
  { unfold retryable_at. rewrite Hout.
    now apply status_below_threshold_terminal. }
  destruct (run_ends_at _ _ _ _ _ _ k Hrun Hk Hbefore Hterm) as [-> ->].
  rewrite Hout in Hget. cbn [fst snd] in Hget.
  destruct Hget as [_ Hget]. rewrite Hget.
  destruct (Z.eqb_spec (StatusCode r) 200) as [Hok|Hne].
  - destruct Hbad as [Hne|[e0 Hread]]; [contradiction|].
    rewrite Hread. eexists _, _. split; [reflexivity|].
    split; [reflexivity|]. right. split; [exact Hok|].
    exists e0. repeat split.
  - eexists _, _. split; [reflexivity|].
    split; [reflexivity|]. left. repeat split. exact Hne.
Qed.

Lemma Handle_terminal_failure_witness :
  exists (e : error) (w' : World),
    Handle (mkDefaultHandler refusedThenNotFound) testURL initial
    = Ok (Some e) w' /\
    calls w' = 2%nat /\
    Error e = "unexpected status code: 404".
Proof.
  destruct (Handle_terminal_failure
              (mkDefaultHandler refusedThenNotFound)
              testURL initial 1%nat (createMockResponse 1 404 "{}"))
    as (e & w' & Hget & Hcalls & [(_ & Hmsg & _)|(Hok & _)]).
  - lia.
  - intros j Hj. destruct j as [|j]; [reflexivity|lia].
  - reflexivity.
  - reflexivity.
  - left. discriminate.
  - exists e, w'. split; [exact Hget|]. split; [exact Hcalls|exact Hmsg].
  - discriminate Hok.
Defined.

(** ** Bodies, reads and prints *)

(** X10.  On every path of [Handle] (any result, and the panic as well),
    the bodies closed are exactly the bodies that came with the responses
    obtained, in the order obtained: no response is left open, none is
    closed twice on its own account, nothing else is closed. *)
Theorem Handle_closes_each_response
  (h : DefaultHandler) (url : string) (w : World) :
  exists (w' : World) (evs : list Event),
    ((exists res : option error, Handle h url w = Ok res w') \/
     Handle h url w = Panic w') /\
    trace w' = trace w ++ evs /\
    closes_of evs
    = flat_map (fun n => response_body (RoundTrip (httpClient h) url n))
        (seq (calls w) (calls w' - calls w)).
Proof.
  change (Handle h url w) with (getData h url w).
  destruct (getData_cases h url w) as (evs & c' & x & Hrun & Hget).
  pose proof (run_closes_of _ _ _ _ _ _ _ _ Hrun) as Hcloses.
  destruct (default_run_exit _ _ _ _ _ _ Hrun) as (k & _ & -> & _ & Hx).
  assert (Hlast : forall (o : list nat),
             response_body (RoundTrip (httpClient h) url (calls w + k)) = o ->
             closes_of evs ++ o
             = flat_map (fun n => response_body (RoundTrip (httpClient h) url n))
                 (seq (calls w) (S (calls w + k) - calls w))
             \/ exists r e, x = Fell r e).
  { intros o Ho. destruct x as [r e|r e]; [left|right; eauto].
    rewrite Hcloses.
    replace (S (calls w + k) - calls w - 1)%nat with k by lia.
    replace (S (calls w + k) - calls w)%nat with (S k) by lia.
    rewrite seq_S, flat_map_app. cbn [flat_map]. now rewrite app_nil_r, Ho. }
  destruct x as [[r|] [e|]|r e]; try contradiction.
  - destruct Hx as (Hr & _ & _). destruct Hget as [_ Hget].
    destruct (Hlast [body_id (Body r)]) as [Hall|(? & ? & [=])].
    { unfold response_body. now rewrite <- Hr. }
    destruct (StatusCode r =? 200); [destruct (read_all (Body r))|].
    all: eexists _, _; split; [left; eexists; exact Hget|].
    all: cbn [calls trace]; split; [reflexivity|].
    all: rewrite closes_of_app; cbn [closes_of flat_map app]; exact Hall.
  - destruct Hx as (Hr & _ & _).
    destruct (Hlast []) as [Hall|(? & ? & [=])].
    { unfold response_body. now rewrite <- Hr. }
    eexists _, evs. split; [right; exact Hget|]. cbn [calls trace].
    split; [reflexivity|]. now rewrite app_nil_r in Hall.
  - eexists _, evs. split; [left; eexists; exact Hget|]. cbn [calls trace].
    split; [reflexivity|].
    rewrite Hcloses. now rewrite Nat.sub_0_r.
Qed.

(** X11.  Whatever [Handle] returns, it has read at most one body: that of
    the response of its last call, and only if that response has status
    200; bodies of discarded responses and of responses with another
    status are never read.  It prints the "Received" line, with the length
    of what it read, exactly when it returns a nil error. *)
Theorem Handle_reads_and_prints
  (h : DefaultHandler) (url : string) (w w' : World) (res : option error) :
  Handle h url w = Ok res w' ->
  exists evs : list Event,
    trace w' = trace w ++ evs /\
    (reads_of evs = [] \/
     exists r : Response,
       fst (RoundTrip (httpClient h) url (calls w' - 1)) = Some r /\
       StatusCode r = 200 /\
       reads_of evs = [body_id (Body r)]) /\
    (res <> None -> prints_of evs = []) /\
    (res = None ->
     exists (r : Response) (data : list Byte.byte),
       fst (RoundTrip (httpClient h) url (calls w' - 1)) = Some r /\
       read_all (Body r) = ReadOk data /\
       prints_of evs
       = [("Received " ++ fmt_d (Z.of_nat (List.length data))
           ++ " bytes of data" ++ newline)%string]).
Proof.
  change (Handle h url w) with (getData h url w).
  intros Hres.
  destruct (getData_cases h url w) as (evs & c' & x & Hrun & Hget).
  destruct (run_no_io _ _ _ _ _ _ _ _ Hrun) as [Hreads Hprints].
  destruct (default_run_exit _ _ _ _ _ _ Hrun) as (k & _ & -> & _ & Hx).
  destruct x as [[r|] [e|]|r e]; try contradiction.
  - destruct Hx as (Hr & _ & _). destruct Hget as [_ Hget].
    rewrite Hget in Hres.
    destruct (Z.eqb_spec (StatusCode r) 200) as [Hok|Hne].
    + destruct (read_all (Body r)) as [data|e] eqn:Hread.
      * injection Hres as <- <-. eexists. cbn [calls trace].
        split; [reflexivity|].
        rewrite reads_of_app, prints_of_app, Hreads, Hprints.
        cbn [reads_of prints_of flat_map app].
        replace (S (calls w + k) - 1)%nat with (calls w + k)%nat by lia.
        split; [right; exists r; now rewrite <- Hr|].
        split; [congruence|].
        intros _. exists r, data. now rewrite <- Hr.
      * injection Hres as <- <-. eexists. cbn [calls trace].
        split; [reflexivity|].
        rewrite reads_of_app, prints_of_app, Hreads, Hprints.
        cbn [reads_of prints_of flat_map app].
        replace (S (calls w + k) - 1)%nat with (calls w + k)%nat by lia.
        split; [right; exists r; now rewrite <- Hr|].
        split; [reflexivity|discriminate].
    + injection Hres as <- <-. eexists. cbn [calls trace].
      split; [reflexivity|].
      rewrite reads_of_app, prints_of_app, Hreads, Hprints.
      cbn [reads_of prints_of flat_map app].
      split; [now left|]. split; [reflexivity|discriminate].
  - rewrite Hget in Hres. discriminate.
  - rewrite Hget in Hres. injection Hres as <- <-.
    exists evs. cbn [calls trace]. split; [reflexivity|].
    split; [now left|]. split; [intros _; exact Hprints|discriminate].
Qed.

Lemma Handle_reads_and_prints_witness :
  exists (w' : World) (evs : list Event),
    Handle (mkDefaultHandler flakyClient) testURL initial = Ok None w' /\
    trace w' = evs /\
    reads_of evs = [1%nat] /\
    prints_of evs = [("Received 8 bytes of data" ++ newline)%string].
Proof.
  destruct (Handle_reads_and_prints
              (mkDefaultHandler flakyClient) testURL initial
              {| calls := 2;
                 trace := [EvCall 0; EvClose 0; EvSleep 100000000; EvCall 1;
                           EvReadAll 1;
                           EvPrint ("Received 8 bytes of data" ++ newline)%string;
                           EvClose 1] |}
              None eq_refl)
    as (evs & Htrace & _ & _ & _).
  eexists _, evs. split; [reflexivity|].
  cbn in Htrace. subst evs. repeat split.
Defined.

(** X12.  Every error [Handle] returns has one of three forms: the
    exhaustion error, after exactly 4 calls; "unexpected status code: N",
    where N is the status of the last response, neither 200 nor 500 or
    above (a persistent 5xx status is never reported by its code); or
    "failed to read response body: " followed by the read error of the last
    response, whose status is 200. *)
Theorem Handle_error_forms
  (h : DefaultHandler) (url : string) (w w' : World) (e : error) :
  Handle h url w = Ok (Some e) w' ->
  (calls w' = (calls w + 4)%nat /\
   exists cause : string,
     Error e
     = ("failed to make HTTP request: failed after 4 attempts: " ++ cause)%string)
  \/
  (exists r : Response,
      fst (RoundTrip (httpClient h) url (calls w' - 1)) = Some r /\
      StatusCode r <> 200 /\ StatusCode r < 500 /\
      Error e = ("unexpected status code: " ++ fmt_d (StatusCode r))%string)
  \/
  (exists (r : Response) (e0 : error),
      fst (RoundTrip (httpClient h) url (calls w' - 1)) = Some r /\
      StatusCode r = 200 /\
      read_all (Body r) = ReadErr e0 /\
      Error e = ("failed to read response body: " ++ Error e0)%string).
Proof.
  change (Handle h url w) with (getData h url w).
  intros Hres.
  destruct (getData_cases h url w) as (evs & c' & x & Hrun & Hget).
  destruct (default_run_exit _ _ _ _ _ _ Hrun) as (k & _ & -> & _ & Hx).
  destruct x as [[r|] [e1|]|r e1]; try contradiction.
  - destruct Hx as (Hr & _ & _). destruct Hget as [Hlt Hget].
    rewrite Hget in Hres. right.
    destruct (Z.eqb_spec (StatusCode r) 200) as [Hok|Hne].
    + destruct (read_all (Body r)) as [data|e0] eqn:Hread; [discriminate|].
      injection Hres as <- <-. right. exists r, e0. cbn [calls].
      replace (S (calls w + k) - 1)%nat with (calls w + k)%nat by lia.
      repeat split; congruence.
    + injection Hres as <- <-. left. exists r. cbn [calls].
      replace (S (calls w + k) - 1)%nat with (calls w + k)%nat by lia.
      repeat split; congruence.
  - rewrite Hget in Hres. discriminate.
  - destruct Hx as (-> & _). rewrite Hget in Hres.
    injection Hres as <- <-. left. cbn [calls]. split; [lia|].
    destruct e1 as [cause|]; cbn [Errorf_w Error]; eexists; reflexivity.
Qed.

Lemma Handle_error_forms_witness :
  exists (e : error) (w' : World),
    Handle (mkDefaultHandler refusedThenNotFound) testURL initial
    = Ok (Some e) w' /\
    Error e = "unexpected status code: 404".
Proof.
  destruct (Handle_error_forms
              (mkDefaultHandler refusedThenNotFound) testURL initial
              {| calls := 2;
                 trace := [EvCall 0; EvSleep 100000000; EvCall 1; EvClose 1] |}
              (errorString "unexpected status code: 404") eq_refl)
    as [(Hcalls & _)|[(r & Hr & _ & _ & Hmsg)|(r & e0 & Hr & Hok & _)]].
  - discriminate Hcalls.
  - eexists _, _. split; [reflexivity|exact eq_refl].
  - injection Hr as <-. discriminate Hok.
Defined.

(** ** The process *)

(** X13.  When [main] ends without a panic, what the process has printed
    is determined by how it ends: on the way to [log.Fatalf] nothing is
    printed and the line logged is "Error handling request: " followed by
    the message of the error [Handle] returned; otherwise exactly two lines
    are printed, the "Received" line with the length of the body read and
    then "Successfully completed request". *)
Theorem main_output
  (network : string -> nat -> Outcome) (w w' : World) (res : ProcessExit) :
  main network w = Ok res w' ->
  exists evs : list Event,
    trace w' = trace w ++ evs /\
    match res with
    | Fatal line =>
        prints_of evs = [] /\
        exists (e : error) (w1 : World),
          Handle (NewDefaultHandler network)
            "https://petstore.swagger.io/v2/pet/findByStatus?status=available" w
          = Ok (Some e) w1 /\
          line = ("Error handling request: " ++ Error e)%string
    | Done =>
        exists data : list Byte.byte,
          prints_of evs
          = [("Received " ++ fmt_d (Z.of_nat (List.length data))
              ++ " bytes of data" ++ newline)%string;
             ("Successfully completed request" ++ newline)%string]
    end.
Proof.
  unfold main. cbv zeta. unfold bind at 1.
  change (Handle (NewDefaultHandler network)) with (getData (NewDefaultHandler network)).
  set (url := "https://petstore.swagger.io/v2/pet/findByStatus?status=available").
  intros Hmain.
  destruct (getData_cases (NewDefaultHandler network) url w)
    as (evs & c' & x & Hrun & Hget).
  destruct (run_no_io _ _ _ _ _ _ _ _ Hrun) as [_ Hprints].
  destruct x as [[r|] [e1|]|r e1]; try contradiction.
  - destruct Hget as [_ Hget]. rewrite Hget in Hmain |- *.
    destruct (StatusCode r =? 200).
    + destruct (read_all (Body r)) as [data|e0].
      * unfold bind, fmt_Println, fmt_Printf, ret, emit in Hmain.
        cbn [calls trace] in Hmain. injection Hmain as <- <-.
        eexists. cbn [trace]. rewrite <- !app_assoc.
        split; [reflexivity|]. exists data.
        rewrite !prints_of_app, Hprints. reflexivity.
      * unfold ret in Hmain. injection Hmain as <- <-.
        eexists. cbn [trace]. split; [reflexivity|].
        rewrite prints_of_app, Hprints. split; [reflexivity|].
        eexists _, _. split; reflexivity.
    + unfold ret in Hmain. injection Hmain as <- <-.
      eexists. cbn [trace]. split; [reflexivity|].
      rewrite prints_of_app, Hprints. split; [reflexivity|].
      eexists _, _. split; reflexivity.
  - rewrite Hget in Hmain. discriminate.
  - rewrite Hget in Hmain |- *. unfold ret in Hmain.
    injection Hmain as <- <-.
    exists evs. cbn [trace]. split; [reflexivity|].
    split; [exact Hprints|]. eexists _, _. split; reflexivity.
Qed.

Lemma main_output_witness :
  exists (w' : World),
    main (RoundTrip flakyClient) initial = Ok Done w' /\
    prints_of (trace w')
    = [("Received 8 bytes of data" ++ newline)%string;
       ("Successfully completed request" ++ newline)%string].
Proof.
  destruct (main_output (RoundTrip flakyClient) initial
              {| calls := 2;
                 trace := [EvCall 0; EvClose 0; EvSleep 100000000; EvCall 1;
                           EvReadAll 1;
                           EvPrint ("Received 8 bytes of data" ++ newline)%string;
                           EvClose 1;
                           EvPrint ("Successfully completed request"
                                    ++ newline)%string] |}
              Done eq_refl)
    as (evs & Htrace & data & Hprints).
  eexists. split; [reflexivity|].
  cbn in Htrace. subst evs. reflexivity.
Defined.

(** ** The test double [MockRoundTripper] *)

(** The events of a run with the handler's budget that uses up its four
    attempts. *)
Lemma exhausted_events (script : nat -> Outcome)
  (retryable : option Response -> option error -> bool)
  (c : nat) (evs : list Event) (c' : nat) (x : LoopExit) :
  loop_run script retryable defaultMaxRetries 0 c evs c' x ->
  (forall k : nat, (k < 4)%nat -> retryable_at script retryable (c + k) = true) ->
  evs = [EvCall c] ++ closeEvents (script c)
        ++ [EvSleep (100 * Millisecond); EvCall (1 + c)]
        ++ closeEvents (script (1 + c)%nat)
        ++ [EvSleep (200 * Millisecond); EvCall (2 + c)]
        ++ closeEvents (script (2 + c)%nat)
        ++ [EvSleep (300 * Millisecond); EvCall (3 + c)]
        ++ closeEvents (script (3 + c)%nat).
Proof.
  intros Hrun Hall.
  assert (H0 : retryable_at script retryable c = true).
  { rewrite <- (Nat.add_0_r c). apply Hall. lia. }
  assert (H1 : retryable_at script retryable (S c) = true).
  { rewrite <- (Nat.add_1_r c). apply Hall. lia. }
  assert (H2 : retryable_at script retryable (S (S c)) = true).
  { replace (S (S c)) with (c + 2)%nat by lia. apply Hall. lia. }
  assert (H3 : retryable_at script retryable (S (S (S c))) = true).
  { replace (S (S (S c))) with (c + 3)%nat by lia. apply Hall. lia. }
  unfold defaultMaxRetries in Hrun.
  inversion Hrun as [| |a0 c0 evs0 c0' x0 _ _ Hrun0]; subst;
    [congruence|discriminate|].
  inversion Hrun0 as [| |a1 c1 evs1 c1' x1 _ _ Hrun1]; subst;
    [congruence|discriminate|].
  inversion Hrun1 as [| |a2 c2 evs2 c2' x2 _ _ Hrun2]; subst;
    [congruence|discriminate|].
  inversion Hrun2 as [| |a3 c3 evs3 c3' x3 _ Hlt _]; subst;
    [congruence| |discriminate Hlt].
  cbn [sleepEvents Z.ltb Z.compare Z.add Pos.add Pos.succ app Nat.add].
  reflexivity.
Qed.



(** X15.  When the mock hands out its one response with a status of 500 or
    above, every attempt obtains the same body: [Handle] closes that one
    body four times, once after each call, and returns the exhaustion error,
    which wraps no cause. *)
Theorem mock_server_error_closes_shared_body
  (m : MockRoundTripper) (url : string) (w : World) (r : Response) :
  Mock_Err m = None ->
  Mock_Response m = Some r ->
  500 <= StatusCode r ->
  Handle (mkDefaultHandler (mockClient m)) url w
  = Ok (Some (Errorf_w "failed to make HTTP request: "
                (Some (Errorf_w "failed after 4 attempts: " None))))
       {| calls := 4 + calls w;
          trace := trace w
                   ++ [EvCall (calls w); EvClose (body_id (Body r));
                       EvSleep (100 * Millisecond);
                       EvCall (1 + calls w); EvClose (body_id (Body r));
                       EvSleep (200 * Millisecond);
                       EvCall (2 + calls w); EvClose (body_id (Body r));
                       EvSleep (300 * Millisecond);
                       EvCall (3 + calls w); EvClose (body_id (Body r))] |}.
Proof.
  intros Herr Hresp Hstatus.
  change (Handle (mkDefaultHandler (mockClient m)) url w)
    with (getData (mkDefaultHandler (mockClient m)) url w).
  destruct (getData_cases (mkDefaultHandler (mockClient m)) url w)
    as (evs & c' & x & Hrun & Hget).
  assert (Hall : forall k : nat,
             (k < 4)%nat ->
             retryable_at (RoundTrip (httpClient (mkDefaultHandler (mockClient m))) url)
               (isRetryable (mkDefaultHandler (mockClient m))) (calls w + k)
             = true).
  { intros k _. unfold retryable_at. cbn. unfold Mock_RoundTrip.
    rewrite Herr, Hresp. cbn. unfold serverErrorThreshold.
    destruct (Z.leb_spec 500 (StatusCode r)); [reflexivity|lia]. }
  pose proof (exhausted_events _ _ _ _ _ _ Hrun Hall) as Hevs.
  destruct (run_exhausts _ _ _ _ _ _ Hrun Hall) as [-> ->].
  rewrite Hget, Hevs. cbn [RoundTrip httpClient mockClient].
  unfold Mock_RoundTrip, closeEvents. rewrite Herr, Hresp. cbn [fst snd app].
  do 2 f_equal. lia.
Qed.

Lemma mock_server_error_closes_shared_body_witness :
  exists w' : World,
    Handle (mkDefaultHandler
              (mockClient (mkMock (Some (createMockResponse 1 503 "{}")) None)))
           testURL initial
    = Ok (Some (Errorf_w "failed to make HTTP request: "
                  (Some (Errorf_w "failed after 4 attempts: " None))))
         w' /\
    closes_of (trace w') = [1; 1; 1; 1]%nat.
Proof.
  eexists. split.
  - exact (mock_server_error_closes_shared_body
             (mkMock (Some (createMockResponse 1 503 "{}")) None)
             testURL initial (createMockResponse 1 503 "{}")
             eq_refl eq_refl ltac:(discriminate)).
  - reflexivity.
Defined.
